(** * gcloud.logging._gax: the GAX wrapper for Logging API requests

    A shallow embedding of [gcloud/logging/_gax.py].  Python dictionaries
    are finite maps with string keys, protobuf messages are records that
    start at their default value, exceptions are the left summand of a
    result and the generated GAX client is a record of reply functions
    over the trace of calls made so far. *)

From stdpp Require Import gmap strings list fin_maps.
From Stdlib Require Import ZArith.
From Stdlib Require Floats.SpecFloat.

Local Open Scope Z_scope.
Local Open Scope string_scope.

(** ** Protobuf messages *)

(** [google.api.MonitoredResource]. *)
Record MonitoredResource := mkMonitoredResource {
  resource_type : string;
  resource_labels : gmap string string;
}.

(** [google.protobuf.Timestamp]. *)
Record Timestamp := mkTimestamp {
  seconds : Z;
  nanos : Z;
}.

(** [google.protobuf.Any]. *)
Record Any := mkAny {
  type_url : string;
  any_value : string;
}.

(** [google.protobuf.Duration]. *)
Record Duration := mkDuration {
  duration_seconds : Z;
  duration_nanos : Z;
}.

(** The fields of [google.logging.type.HttpRequest] that this module
    neither reads nor writes. *)
Record HttpRequestUnread := mkHttpRequestUnread {
  server_ip : string;
  latency : Duration;
  cache_lookup : bool;
  cache_validated_with_origin_server : bool;
  cache_fill_bytes : Z;
  protocol : string;
}.

(** [google.logging.type.HttpRequest]: the nine fields this module
    copies, and the others. *)
Record HttpRequest := mkHttpRequest {
  request_method : string;
  request_url : string;
  status : Z;
  referer : string;
  user_agent : string;
  cache_hit : bool;
  request_size : Z;
  response_size : Z;
  remote_ip : string;
  unread : HttpRequestUnread;
}.

(** [google.logging.v2.LogEntryOperation]. *)
Record LogEntryOperation := mkLogEntryOperation {
  op_producer : string;
  op_id : string;
  op_first : bool;
  op_last : bool;
}.

(** [google.logging.v2.LogSink], built as
    [LogSink(name=..., filter=..., destination=...)]. *)
Record LogSink := mkLogSink {
  pb_name : string;
  pb_filter : string;
  pb_destination : string;
}.

#[global] Instance MonitoredResource_eq_dec : EqDecision MonitoredResource.
Proof. solve_decision. Defined.
#[global] Instance Timestamp_eq_dec : EqDecision Timestamp.
Proof. solve_decision. Defined.
#[global] Instance Any_eq_dec : EqDecision Any.
Proof. solve_decision. Defined.
#[global] Instance Duration_eq_dec : EqDecision Duration.
Proof. solve_decision. Defined.
#[global] Instance HttpRequestUnread_eq_dec : EqDecision HttpRequestUnread.
Proof. solve_decision. Defined.
#[global] Instance HttpRequest_eq_dec : EqDecision HttpRequest.
Proof. solve_decision. Defined.
#[global] Instance LogEntryOperation_eq_dec : EqDecision LogEntryOperation.
Proof. solve_decision. Defined.
#[global] Instance LogSink_eq_dec : EqDecision LogSink.
Proof. solve_decision. Defined.

(** ** Python values *)

(** The values a mapping of this module holds: the Python scalars (a
    [float] is a binary64), a native [datetime] (microseconds since the
    epoch), nested dictionaries and lists, and the protobuf objects that
    [_log_entry_pb_to_mapping] stores as they are. *)
#[local] Unset Elimination Schemes.
Inductive pyval : Type :=
  | VNone
  | VBool (b : bool)
  | VInt (n : Z)
  | VFloat (x : SpecFloat.spec_float)
  | VStr (s : string)
  | VDatetime (us : Z)
  | VDict (d : gmap string pyval)
  | VList (l : list pyval)
  | VResource (r : MonitoredResource)
  | VTimestamp (t : Timestamp)
  | VLabels (m : gmap string string)
  | VStruct (s : gmap string pyval)
  | VAny (a : Any).
#[local] Set Elimination Schemes.

(** [google.protobuf.Struct]: the fields of a JSON object, each a
    [google.protobuf.Value]: null ([VNone]), a number ([VFloat], a
    double), a string, a bool, a struct ([VStruct]) or a list. *)
Abbreviation Struct := (gmap string pyval) (only parsing).

(** The [oneof payload] of a [LogEntry]: at most one of its three
    members is set, and writing one clears the others. *)
Inductive Payload :=
  | NoPayload
  | TextPayload (s : string)
  | JsonPayload (fields : Struct)
  | ProtoPayload (a : Any).

(** [google.logging.v2.LogEntry]. *)
Record LogEntry := mkLogEntry {
  log_name : string;
  resource : MonitoredResource;
  severity : Z;
  insert_id : string;
  timestamp : Timestamp;
  labels : gmap string string;
  payload : Payload;
  http_request : HttpRequest;
  operation : LogEntryOperation;
}.

(** The value of a message nobody has written to, [LogEntry()]. *)
Definition MonitoredResource_default : MonitoredResource :=
  mkMonitoredResource "" ∅.
Definition Timestamp_default : Timestamp := mkTimestamp 0 0.
Definition Any_default : Any := mkAny "" "".
Definition HttpRequestUnread_default : HttpRequestUnread :=
  mkHttpRequestUnread "" (mkDuration 0 0) false false 0 "".
Definition HttpRequest_default : HttpRequest :=
  mkHttpRequest "" "" 0 "" "" false 0 0 "" HttpRequestUnread_default.
Definition LogEntryOperation_default : LogEntryOperation :=
  mkLogEntryOperation "" "" false false.
Definition LogEntry_default : LogEntry :=
  mkLogEntry "" MonitoredResource_default 0 "" Timestamp_default ∅
             NoPayload HttpRequest_default LogEntryOperation_default.

(** Reading a member of the [oneof]: its value when it is the one set,
    the default of its type otherwise. *)
Definition text_payload (e : LogEntry) : string :=
  match payload e with
  | TextPayload s => s
  | _ => ""
  end.
Definition json_payload (e : LogEntry) : Struct :=
  match payload e with
  | JsonPayload fields => fields
  | _ => ∅
  end.
Definition proto_payload (e : LogEntry) : Any :=
  match payload e with
  | ProtoPayload a => a
  | _ => Any_default
  end.

(** ** Exceptions and results *)

(** [grpc.beta.interfaces.StatusCode]. *)
Inductive StatusCode :=
  | OK | CANCELLED | UNKNOWN | INVALID_ARGUMENT | DEADLINE_EXCEEDED
  | NOT_FOUND | ALREADY_EXISTS | PERMISSION_DENIED | RESOURCE_EXHAUSTED
  | FAILED_PRECONDITION | ABORTED | OUT_OF_RANGE | UNIMPLEMENTED
  | INTERNAL | UNAVAILABLE | DATA_LOSS | UNAUTHENTICATED.

#[global] Instance StatusCode_eq_dec : EqDecision StatusCode.
Proof. solve_decision. Defined.

(** The [cause] of a [GaxError]: the transport's own error, with the
    status code it carries when it is a gRPC abortion, or anything else. *)
Inductive rpc_cause :=
  | AbortionError (code : option StatusCode)
  | OtherCause (descr : string).

(** Modelled from the spec: [google.gax.grpc.exc_to_code] is the
    client library's; a transport error carries a translatable status
    code, and a cause that is no transport error has none. *)
Definition exc_to_code (cause : rpc_cause) : option StatusCode :=
  match cause with
  | AbortionError code => code
  | OtherCause _ => None
  end.

(** The exceptions that travel through this module.  [Conflict] and
    [NotFound] are the two of [gcloud.exceptions] and carry their
    message; [GaxError] is [google.gax.errors.GaxError]. *)
Inductive exn :=
  | GaxError (cause : rpc_cause)
  | Conflict (message : string)
  | NotFound (message : string)
  | KeyError (key : string)
  | TypeError
  | ValueError
  | AttributeError
  | ParseError
  | StopIteration
  | OtherError (descr : string).

#[global] Instance rpc_cause_eq_dec : EqDecision rpc_cause.
Proof. solve_decision. Defined.
#[global] Instance exn_eq_dec : EqDecision exn.
Proof. solve_decision. Defined.

(** A computation that returns or raises. *)
Definition result (A : Type) : Type := exn + A.

Definition ok {A} (a : A) : result A := inr a.
Definition raise {A} (e : exn) : result A := inl e.

#[global] Instance result_ret : MRet result := λ A a, inr a.
#[global] Instance result_bind : MBind result := λ A B k c,
  match c with
  | inl e => inl e
  | inr a => k a
  end.

(** A [for] loop whose body may raise: the first exception ends it. *)
Fixpoint for_each {A S} (body : S → A → result S) (xs : list A) (s : S)
  : result S :=
  match xs with
  | [] => ok s
  | x :: xs' => s' ← body s x; for_each body xs' s'
  end.

(** A list comprehension whose element expression may raise. *)
Fixpoint comprehension {A B} (f : A → result B) (xs : list A)
  : result (list B) :=
  match xs with
  | [] => ok []
  | x :: xs' => y ← f x; ys ← comprehension f xs'; ok (y :: ys)
  end.

(** ** The Python operations the module applies to its arguments *)

(** [key in info]: membership in a mapping, containment in a string, an
    equal element in a list; a value that is no container raises. *)
Definition py_contains (key : string) (info : pyval) : result bool :=
  match info with
  | VDict d => ok (bool_decide (is_Some (d !! key)))
  | VLabels m => ok (bool_decide (is_Some (m !! key)))
  | VStr s => ok (bool_decide (is_Some (String.index 0 key s)))
  | VList l =>
      ok (existsb (λ v, match v with
                        | VStr s => bool_decide (s = key)
                        | _ => false
                        end) l)
  | _ => raise TypeError
  end.

(** [info[key]] for a string [key]: the value of a mapping, [KeyError]
    when the key is absent; strings and lists take no string index. *)
Definition py_getitem (info : pyval) (key : string) : result pyval :=
  match info with
  | VDict d =>
      match d !! key with
      | Some v => ok v
      | None => raise (KeyError key)
      end
  | VLabels m =>
      match m !! key with
      | Some s => ok (VStr s)
      | None => raise (KeyError key)
      end
  | _ => raise TypeError
  end.

(** [info.items()]. *)
Definition py_items (info : pyval) : result (list (string * pyval)) :=
  match info with
  | VDict d => ok (map_to_list d)
  | VLabels m => ok (map_to_list (VStr <$> m))
  | _ => raise AttributeError
  end.

(** ** The protobuf runtime, as far as the module uses it *)

(** What a scalar field stores of the value assigned to it; the checks
    are the protobuf runtime's.  A string field takes a string. *)
Definition check_str (v : pyval) : result string :=
  match v with
  | VStr s => ok s
  | _ => raise TypeError
  end.

(** A bool field takes a bool, or an integer, of which it stores the
    truth value. *)
Definition check_bool (v : pyval) : result bool :=
  match v with
  | VBool b => ok b
  | VInt n => ok (bool_decide (n ≠ 0))
  | _ => raise TypeError
  end.

(** An integer field takes an integer within its width, or a bool, which
    it stores as 0 or 1. *)
Definition check_int (bits : Z) (v : pyval) : result Z :=
  match v with
  | VInt n =>
      if bool_decide (- 2 ^ (bits - 1) ≤ n < 2 ^ (bits - 1)) then ok n
      else raise ValueError
  | VBool b => ok (Z.b2z b)
  | _ => raise TypeError
  end.

(** Modelled from the spec: the severity enumeration
    [google.logging.type.LogSeverity], a constant table with a
    name-to-value lookup that fails on an unknown name. *)
Definition LogSeverity_values : list (string * Z) :=
  [ ("DEFAULT", 0); ("DEBUG", 100); ("INFO", 200); ("NOTICE", 300);
    ("WARNING", 400); ("ERROR", 500); ("CRITICAL", 600); ("ALERT", 700);
    ("EMERGENCY", 800) ].

Fixpoint assoc {A} (key : string) (table : list (string * A)) : option A :=
  match table with
  | [] => None
  | (k, a) :: table' => if bool_decide (k = key) then Some a else assoc key table'
  end.

(** [LogSeverity.Value(name)]. *)
Definition LogSeverity_Value (name : string) : result Z :=
  match assoc name LogSeverity_values with
  | Some n => ok n
  | None => raise ValueError
  end.

(** Assignment to the enum field: the enumeration is open (proto3), so
    the field stores any 32-bit integer, named or not. *)
Definition check_severity (v : pyval) : result Z := check_int 32 v.

(** Modelled from the spec: [gcloud._helpers._datetime_to_pb_timestamp]
    is not in this file; it converts a native date/time value into the
    wire timestamp, whole seconds and the rest in nanoseconds. *)
Definition _datetime_to_pb_timestamp (when : pyval) : result Timestamp :=
  match when with
  | VDatetime us => ok (mkTimestamp (us `div` 1000000) (us `mod` 1000000 * 1000))
  | _ => raise AttributeError
  end.

(** [float(n)]: the double nearest to an integer, ties to even; an
    integer beyond the doubles raises [OverflowError]. *)
Definition float_of_int (n : Z) : result SpecFloat.spec_float :=
  match SpecFloat.binary_normalize 53 1024 n 0 false with
  | SpecFloat.S754_infinity _ => raise (OtherError "OverflowError")
  | x => ok x
  end.

(** The [google.protobuf.Value] a Python value is stored as: [None], a
    bool and a string as they are, a number as a double, a dictionary as
    a struct and a list as a list of values, each converted in turn;
    any other value raises. *)
Fixpoint struct_value (value : pyval) : result pyval :=
  match value with
  | VNone => ok VNone
  | VBool b => ok (VBool b)
  | VStr s => ok (VStr s)
  | VInt n => x ← float_of_int n; ok (VFloat x)
  | VFloat x => ok (VFloat x)
  | VDict d =>
      fields ← map_fold (λ key v acc,
                   fields ← acc; v' ← struct_value v;
                   ok (<[key := v']> fields)) (ok ∅) d;
      ok (VStruct fields)
  | VList l =>
      values ← foldr (λ v acc,
                  values ← acc; v' ← struct_value v; ok (v' :: values))
                (ok []) l;
      ok (VList values)
  | _ => raise ValueError
  end.

(** [struct[key] = value] on a [google.protobuf.Struct]. *)
Definition Struct_setitem (s : Struct) (key : string) (value : pyval)
  : result Struct :=
  v ← struct_value value; ok (<[key := v]> s).

(** The truth value of a message in an [if]: a protobuf message
    defines neither [__bool__] nor [__len__], so it is true, whatever
    its fields hold. *)
Definition HttpRequest_bool (request : HttpRequest) : bool := true.

Definition LogEntryOperation_bool (operation : LogEntryOperation) : bool :=
  true.

(** ** Field assignment *)

Definition set_log_name (s : string) (e : LogEntry) : LogEntry :=
  mkLogEntry s (resource e) (severity e) (insert_id e) (timestamp e)
    (labels e) (payload e) (http_request e) (operation e).
Definition set_resource (r : MonitoredResource) (e : LogEntry) : LogEntry :=
  mkLogEntry (log_name e) r (severity e) (insert_id e) (timestamp e)
    (labels e) (payload e) (http_request e) (operation e).
Definition set_severity (n : Z) (e : LogEntry) : LogEntry :=
  mkLogEntry (log_name e) (resource e) n (insert_id e) (timestamp e)
    (labels e) (payload e) (http_request e) (operation e).
Definition set_insert_id (s : string) (e : LogEntry) : LogEntry :=
  mkLogEntry (log_name e) (resource e) (severity e) s (timestamp e)
    (labels e) (payload e) (http_request e) (operation e).
Definition set_timestamp (t : Timestamp) (e : LogEntry) : LogEntry :=
  mkLogEntry (log_name e) (resource e) (severity e) (insert_id e) t
    (labels e) (payload e) (http_request e) (operation e).
Definition set_labels (m : gmap string string) (e : LogEntry) : LogEntry :=
  mkLogEntry (log_name e) (resource e) (severity e) (insert_id e)
    (timestamp e) m (payload e) (http_request e) (operation e).
Definition set_payload (p : Payload) (e : LogEntry) : LogEntry :=
  mkLogEntry (log_name e) (resource e) (severity e) (insert_id e)
    (timestamp e) (labels e) p (http_request e) (operation e).
Definition set_http_request (r : HttpRequest) (e : LogEntry) : LogEntry :=
  mkLogEntry (log_name e) (resource e) (severity e) (insert_id e)
    (timestamp e) (labels e) (payload e) r (operation e).
Definition set_operation (o : LogEntryOperation) (e : LogEntry) : LogEntry :=
  mkLogEntry (log_name e) (resource e) (severity e) (insert_id e)
    (timestamp e) (labels e) (payload e) (http_request e) o.

(** Writing a member of the [oneof] makes it the one that is set. *)
Definition set_text_payload (s : string) (e : LogEntry) : LogEntry :=
  set_payload (TextPayload s) e.
Definition set_json_payload (s : Struct) (e : LogEntry) : LogEntry :=
  set_payload (JsonPayload s) e.
Definition set_proto_payload (a : Any) (e : LogEntry) : LogEntry :=
  set_payload (ProtoPayload a) e.

(** [setattr(entry_pb, key, value)] for the scalar fields the module
    sets by name. *)
Definition LogEntry_setattr (entry_pb : LogEntry) (key : string)
    (value : pyval) : result LogEntry :=
  if bool_decide (key = "log_name") then
    s ← check_str value; ok (set_log_name s entry_pb)
  else if bool_decide (key = "insert_id") then
    s ← check_str value; ok (set_insert_id s entry_pb)
  else if bool_decide (key = "text_payload") then
    s ← check_str value; ok (set_text_payload s entry_pb)
  else raise AttributeError.

(** [setattr(request, key, value)]. *)
Definition HttpRequest_setattr (request : HttpRequest) (key : string)
    (value : pyval) : result HttpRequest :=
  let '(mkHttpRequest rm ru st rf ua ch rq rs ip rest) := request in
  if bool_decide (key = "request_method") then
    s ← check_str value; ok (mkHttpRequest s ru st rf ua ch rq rs ip rest)
  else if bool_decide (key = "request_url") then
    s ← check_str value; ok (mkHttpRequest rm s st rf ua ch rq rs ip rest)
  else if bool_decide (key = "status") then
    n ← check_int 32 value; ok (mkHttpRequest rm ru n rf ua ch rq rs ip rest)
  else if bool_decide (key = "referer") then
    s ← check_str value; ok (mkHttpRequest rm ru st s ua ch rq rs ip rest)
  else if bool_decide (key = "user_agent") then
    s ← check_str value; ok (mkHttpRequest rm ru st rf s ch rq rs ip rest)
  else if bool_decide (key = "cache_hit") then
    b ← check_bool value; ok (mkHttpRequest rm ru st rf ua b rq rs ip rest)
  else if bool_decide (key = "request_size") then
    n ← check_int 64 value; ok (mkHttpRequest rm ru st rf ua ch n rs ip rest)
  else if bool_decide (key = "response_size") then
    n ← check_int 64 value; ok (mkHttpRequest rm ru st rf ua ch rq n ip rest)
  else if bool_decide (key = "remote_ip") then
    s ← check_str value; ok (mkHttpRequest rm ru st rf ua ch rq rs s rest)
  else raise AttributeError.

(** ** The converters *)

(** [_log_entry_pb_to_mapping]. *)
Definition _log_entry_pb_to_mapping (entry_pb : LogEntry)
  : gmap string pyval :=
  let mapping : gmap string pyval :=
    list_to_map [
      ("log_name", VStr (log_name entry_pb));
      ("resource", VResource (resource entry_pb));
      ("severity", VInt (severity entry_pb));
      ("insert_id", VStr (insert_id entry_pb));
      ("timestamp", VTimestamp (timestamp entry_pb));
      ("labels", VLabels (labels entry_pb));
      ("text_payload", VStr (text_payload entry_pb));
      ("json_payload", VStruct (json_payload entry_pb));
      ("proto_payload", VAny (proto_payload entry_pb)) ] in
  let mapping :=
    if HttpRequest_bool (http_request entry_pb) then
      let request := http_request entry_pb in
      <["http_request" := VDict (list_to_map [
          ("request_method", VStr (request_method request));
          ("request_url", VStr (request_url request));
          ("status", VInt (status request));
          ("referer", VStr (referer request));
          ("user_agent", VStr (user_agent request));
          ("cache_hit", VBool (cache_hit request));
          ("request_size", VInt (request_size request));
          ("response_size", VInt (response_size request));
          ("remote_ip", VStr (remote_ip request)) ])]> mapping
    else mapping in
  let mapping :=
    if LogEntryOperation_bool (operation entry_pb) then
      let operation := operation entry_pb in
      <["operation" := VDict (list_to_map [
          ("producer", VStr (op_producer operation));
          ("id", VStr (op_id operation));
          ("first", VBool (op_first operation));
          ("last", VBool (op_last operation)) ])]> mapping
    else mapping in
  mapping.

(** [_http_request_mapping_to_pb]; the message it fills in place is
    returned. *)
Definition _http_request_mapping_to_pb (info : pyval) (request : HttpRequest)
  : result HttpRequest :=
  let optional_request_keys :=
    [ "request_method"; "request_url"; "status"; "referer"; "user_agent";
      "cache_hit"; "request_size"; "response_size"; "remote_ip" ] in
  for_each (λ request key,
      present ← py_contains key info;
      if (present : bool) then
        value ← py_getitem info key; HttpRequest_setattr request key value
      else ok request)
    optional_request_keys request.

(** [_log_operation_mapping_to_pb]. *)
Definition _log_operation_mapping_to_pb (info : pyval)
    (operation : LogEntryOperation) : result LogEntryOperation :=
  let '(mkLogEntryOperation _ _ fst_ lst_) := operation in
  v ← py_getitem info "producer";
  producer ← check_str v;
  v ← py_getitem info "id";
  id_ ← check_str v;
  present ← py_contains "first" info;
  fst_ ← (if (present : bool) then v ← py_getitem info "first"; check_bool v
          else ok fst_);
  present ← py_contains "last" info;
  lst_ ← (if (present : bool) then v ← py_getitem info "last"; check_bool v
          else ok lst_);
  ok (mkLogEntryOperation producer id_ fst_ lst_).

(** [_log_sink_pb_to_mapping]. *)
Definition _log_sink_pb_to_mapping (sink_pb : LogSink) : gmap string pyval :=
  list_to_map [
    ("name", VStr (pb_name sink_pb));
    ("destination", VStr (pb_destination sink_pb));
    ("filter", VStr (pb_filter sink_pb)) ].

Section TextJsonBridge.

(** [json.dumps] and [google.protobuf.json_format.Parse]: the text-JSON
    bridge into the embedded message.  Both are libraries' and either
    may raise; [Parse text message] returns the message it filled. *)
Variable json_dumps : pyval → result string.
Variable Parse : string → Any → result Any.

(** [_log_entry_mapping_to_pb]. *)
Definition _log_entry_mapping_to_pb (mapping : gmap string pyval)
  : result LogEntry :=
  let entry_pb := LogEntry_default in
  let optional_scalar_keys := [ "log_name"; "insert_id"; "text_payload" ] in
  entry_pb ← for_each (λ entry_pb key,
      match mapping !! key with
      | Some value => LogEntry_setattr entry_pb key value
      | None => ok entry_pb
      end) optional_scalar_keys entry_pb;
  entry_pb ← match mapping !! "resource" with
    | Some res =>
        v ← py_getitem res "type";
        type ← check_str v;
        ok (set_resource
              (mkMonitoredResource type (resource_labels (resource entry_pb)))
              entry_pb)
    | None => ok entry_pb
    end;
  entry_pb ← match mapping !! "severity" with
    | Some severity =>
        severity ← match severity with
          | VStr name => n ← LogSeverity_Value name; ok (VInt n)
          | _ => ok severity
          end;
        n ← check_severity severity;
        ok (set_severity n entry_pb)
    | None => ok entry_pb
    end;
  entry_pb ← match mapping !! "timestamp" with
    | Some when =>
        timestamp ← _datetime_to_pb_timestamp when;
        ok (set_timestamp timestamp entry_pb)
    | None => ok entry_pb
    end;
  entry_pb ← match mapping !! "labels" with
    | Some info =>
        items ← py_items info;
        for_each (λ entry_pb '(key, value),
            s ← check_str value;
            ok (set_labels (<[key := s]> (labels entry_pb)) entry_pb))
          items entry_pb
    | None => ok entry_pb
    end;
  entry_pb ← match mapping !! "json_payload" with
    | Some info =>
        items ← py_items info;
        for_each (λ entry_pb '(key, value),
            s ← Struct_setitem (json_payload entry_pb) key value;
            ok (set_json_payload s entry_pb))
          items entry_pb
    | None => ok entry_pb
    end;
  entry_pb ← match mapping !! "proto_payload" with
    | Some value =>
        text ← json_dumps value;
        a ← Parse text (proto_payload entry_pb);
        ok (set_proto_payload a entry_pb)
    | None => ok entry_pb
    end;
  entry_pb ← match mapping !! "http_request" with
    | Some info =>
        request ← _http_request_mapping_to_pb info (http_request entry_pb);
        ok (set_http_request request entry_pb)
    | None => ok entry_pb
    end;
  entry_pb ← match mapping !! "operation" with
    | Some info =>
        operation ← _log_operation_mapping_to_pb info (operation entry_pb);
        ok (set_operation operation entry_pb)
    | None => ok entry_pb
    end;
  ok entry_pb.

End TextJsonBridge.

(** ** The GAX client *)

(** Modelled from the spec: the page token of [google.gax.CallOptions]
    is either the library's sentinel for the first page,
    [google.gax.INITIAL_PAGE], or a continuation token; the sentinel is
    no string. *)
Inductive page_token_value :=
  | INITIAL_PAGE
  | PageToken (token : string).

Record CallOptions := mkCallOptions {
  page_token : page_token_value;
}.

#[global] Instance page_token_value_eq_dec : EqDecision page_token_value.
Proof. solve_decision. Defined.
#[global] Instance CallOptions_eq_dec : EqDecision CallOptions.
Proof. solve_decision. Defined.

(** [_build_paging_options]. *)
Definition _build_paging_options (page_token : option string) : CallOptions :=
  let page_token :=
    match page_token with
    | None => INITIAL_PAGE
    | Some token => PageToken token
    end in
  mkCallOptions page_token.

(** One call on the generated client, with its arguments in the order
    the module passes them. *)
Inductive rpc_call :=
  | ListLogEntries (projects : list string) (filter_ order_by : string)
      (page_size : Z) (options : CallOptions)
  | WriteLogEntries (entry_pbs : list LogEntry)
      (logger_name resource labels : pyval) (partial_success : bool)
      (options : option CallOptions)
  | DeleteLog (path : string) (options : option CallOptions)
  | ListSinks (project : string) (page_size : Z) (options : CallOptions)
  | CreateSink (parent : string) (sink_pb : LogSink)
      (options : option CallOptions)
  | GetSink (path : string) (options : option CallOptions)
  | UpdateSink (path : string) (sink_pb : LogSink)
      (options : option CallOptions)
  | DeleteSink (path : string) (options : option CallOptions).

(** The client and the server behind it: what each method answers to the
    last call of a trace, a value or an exception.  A page of a list call
    comes with the token of the page that follows ([""] when none). *)
Record GaxApi := mkGaxApi {
  list_log_entries : list rpc_call → result (list LogEntry * string);
  write_log_entries : list rpc_call → result unit;
  delete_log : list rpc_call → result unit;
  list_sinks : list rpc_call → result (list LogSink * string);
  create_sink : list rpc_call → result LogSink;
  get_sink : list rpc_call → result LogSink;
  update_sink : list rpc_call → result LogSink;
  delete_sink : list rpc_call → result unit;
}.

(** A method of the wrapper: it extends the trace of calls made on the
    client and returns or raises. *)
Definition api_call (A : Type) : Type :=
  list rpc_call → list rpc_call * result A.

#[global] Instance api_call_ret : MRet api_call := λ A a trace, (trace, inr a).
#[global] Instance api_call_bind : MBind api_call := λ A B k c trace,
  match c trace with
  | (trace', inl e) => (trace', inl e)
  | (trace', inr a) => k a trace'
  end.

Definition throw {A} (e : exn) : api_call A := λ trace, (trace, inl e).

(** [try: body except ...: handler(exc)]: the handler sees every
    exception and re-raises those its clause does not name. *)
Definition try_except {A} (body : api_call A) (handler : exn → api_call A)
  : api_call A := λ trace,
  match body trace with
  | (trace', inl e) => handler e trace'
  | (trace', inr a) => (trace', inr a)
  end.

(** A computation without calls, run inside a method. *)
Definition lift {A} (c : result A) : api_call A := λ trace, (trace, c).

(** [self._gax_api.<method>(...)]. *)
Definition rpc {A} (call : rpc_call) (reply : list rpc_call → result A)
  : api_call A := λ trace,
  let trace' := (trace ++ [call])%list in (trace', reply trace').

(** [page_iter.page_token or None]. *)
Definition or_None (token : string) : option string :=
  if bool_decide (token = "") then None else Some token.

(** ** _LoggingAPI *)

Module _LoggingAPI.
Section Methods.

Variable json_dumps : pyval → result string.
Variable Parse : string → Any → result Any.
Variable _gax_api : GaxApi.

Definition list_entries (projects : list string) (filter_ order_by : string)
    (page_size : Z) (page_token : option string)
  : api_call (list (gmap string pyval) * option string) :=
  let options := _build_paging_options page_token in
  page_iter ← rpc (ListLogEntries projects filter_ order_by page_size
                     options) (list_log_entries _gax_api);
  let entries := _log_entry_pb_to_mapping <$> page_iter.1 in
  let token := or_None page_iter.2 in
  mret (entries, token).

Definition write_entries (entries : list (gmap string pyval))
    (logger_name resource labels : pyval) : api_call unit :=
  let options := None in
  let partial_success := false in
  entry_pbs ← lift (comprehension
                      (_log_entry_mapping_to_pb json_dumps Parse) entries);
  rpc (WriteLogEntries entry_pbs logger_name resource labels
         partial_success options) (write_log_entries _gax_api).

Definition logger_delete (project logger_name : string) : api_call unit :=
  let options := None in
  let path := "projects/" ++ project ++ "/logs/" ++ logger_name in
  rpc (DeleteLog path options) (delete_log _gax_api).

End Methods.
End _LoggingAPI.

(** ** _SinksAPI *)

Module _SinksAPI.
Section Methods.

Variable _gax_api : GaxApi.

Definition list_sinks (project : string) (page_size : Z)
    (page_token : option string)
  : api_call (list (gmap string pyval) * option string) :=
  let options := _build_paging_options page_token in
  page_iter ← rpc (ListSinks project page_size options)
                  (list_sinks _gax_api);
  let sinks := _log_sink_pb_to_mapping <$> page_iter.1 in
  let token := or_None page_iter.2 in
  mret (sinks, token).

Definition sink_create (project sink_name filter_ destination : string)
  : api_call unit :=
  let options := None in
  let parent := "projects/" ++ project in
  let path := "projects/" ++ project ++ "/sinks/" ++ sink_name in
  let sink_pb := mkLogSink path filter_ destination in
  try_except
    (_ ← rpc (CreateSink parent sink_pb options)
             (create_sink _gax_api);
     mret ())
    (λ exc,
       match exc with
       | GaxError cause =>
           if bool_decide (exc_to_code cause = Some FAILED_PRECONDITION)
           then throw (Conflict path)
           else throw exc
       | _ => throw exc
       end).

Definition sink_get (project sink_name : string)
  : api_call (gmap string pyval) :=
  let options := None in
  let path := "projects/" ++ project ++ "/sinks/" ++ sink_name in
  sink_pb ← try_except
    (rpc (GetSink path options) (get_sink _gax_api))
    (λ exc,
       match exc with
       | GaxError cause =>
           if bool_decide (exc_to_code cause = Some NOT_FOUND)
           then throw (NotFound path)
           else throw exc
       | _ => throw exc
       end);
  mret (_log_sink_pb_to_mapping sink_pb).

Definition sink_update (project sink_name filter_ destination : string)
  : api_call (gmap string pyval) :=
  let options := None in
  let path := "projects/" ++ project ++ "/sinks/" ++ sink_name in
  let sink_pb := mkLogSink path filter_ destination in
  _ ← try_except
    (_ ← rpc (UpdateSink path sink_pb options)
             (update_sink _gax_api);
     mret ())
    (λ exc,
       match exc with
       | GaxError cause =>
           if bool_decide (exc_to_code cause = Some NOT_FOUND)
           then throw (NotFound path)
           else throw exc
       | _ => throw exc
       end);
  mret (_log_sink_pb_to_mapping sink_pb).

Definition sink_delete (project sink_name : string) : api_call unit :=
  let options := None in
  let path := "projects/" ++ project ++ "/sinks/" ++ sink_name in
  try_except
    (rpc (DeleteSink path options) (delete_sink _gax_api))
    (λ exc,
       match exc with
       | GaxError cause =>
           if bool_decide (exc_to_code cause = Some NOT_FOUND)
           then throw (NotFound path)
           else throw exc
       | _ => throw exc
       end).

End Methods.
End _SinksAPI.

(** ** A server to run the methods against

    An in-memory double of the two services: it replays the trace of
    calls to know which sinks exist, refuses to create a sink that
    exists with [FAILED_PRECONDITION] and to get, update or delete one
    that does not with [NOT_FOUND], and accepts every batch of entries. *)

Definition replay (sinks : gmap string LogSink) (call : rpc_call)
  : gmap string LogSink :=
  match call with
  | CreateSink _ sink_pb _ =>
      match sinks !! pb_name sink_pb with
      | Some _ => sinks
      | None => <[pb_name sink_pb := sink_pb]> sinks
      end
  | UpdateSink path sink_pb _ =>
      match sinks !! path with
      | Some _ => <[path := sink_pb]> sinks
      | None => sinks
      end
  | DeleteSink path _ => delete path sinks
  | _ => sinks
  end.

Definition status_error {A} (code : StatusCode) : result A :=
  raise (GaxError (AbortionError (Some code))).

Definition unexpected {A} : result A := raise (OtherError "unexpected call").

(** The sinks before the last call of a trace, and that call. *)
Definition serve {A} (trace : list rpc_call)
    (answer : gmap string LogSink → rpc_call → result A) : result A :=
  match List.last (Some <$> trace) None with
  | Some call => answer (foldl replay ∅ (removelast trace)) call
  | None => unexpected
  end.

Definition memory_api : GaxApi := {|
  list_log_entries trace := ok ([], "");
  write_log_entries trace := ok ();
  delete_log trace := ok ();
  list_sinks trace :=
    serve trace (λ sinks _, ok ((map_to_list sinks).*2, ""));
  create_sink trace :=
    serve trace (λ sinks call,
      match call with
      | CreateSink _ sink_pb _ =>
          match sinks !! pb_name sink_pb with
          | Some _ => status_error FAILED_PRECONDITION
          | None => ok sink_pb
          end
      | _ => unexpected
      end);
  get_sink trace :=
    serve trace (λ sinks call,
      match call with
      | GetSink path _ =>
          match sinks !! path with
          | Some sink_pb => ok sink_pb
          | None => status_error NOT_FOUND
          end
      | _ => unexpected
      end);
  update_sink trace :=
    serve trace (λ sinks call,
      match call with
      | UpdateSink path sink_pb _ =>
          match sinks !! path with
          | Some _ => ok sink_pb
          | None => status_error NOT_FOUND
          end
      | _ => unexpected
      end);
  delete_sink trace :=
    serve trace (λ sinks call,
      match call with
      | DeleteSink path _ =>
          match sinks !! path with
          | Some _ => ok ()
          | None => status_error NOT_FOUND
          end
      | _ => unexpected
      end);
|}.

(** A server whose every sink method is refused for want of permission. *)
Definition denied_api : GaxApi := {|
  list_log_entries trace := status_error PERMISSION_DENIED;
  write_log_entries trace := status_error PERMISSION_DENIED;
  delete_log trace := status_error PERMISSION_DENIED;
  list_sinks trace := status_error PERMISSION_DENIED;
  create_sink trace := status_error PERMISSION_DENIED;
  get_sink trace := status_error PERMISSION_DENIED;
  update_sink trace := status_error PERMISSION_DENIED;
  delete_sink trace := status_error PERMISSION_DENIED;
|}.

(** A server of two pages of entries: the first page comes with the
    token of the second, the second with no token. *)
Definition paged_api : GaxApi := {|
  list_log_entries trace :=
    serve trace (λ _ call,
      match call with
      | ListLogEntries _ _ _ _ (mkCallOptions INITIAL_PAGE) =>
          ok ([set_text_payload "one" LogEntry_default], "page-2")
      | ListLogEntries _ _ _ _ (mkCallOptions (PageToken "page-2")) =>
          ok ([set_text_payload "two" LogEntry_default], "")
      | ListLogEntries _ _ _ _ _ => status_error INVALID_ARGUMENT
      | _ => unexpected
      end);
  write_log_entries := write_log_entries memory_api;
  delete_log := delete_log memory_api;
  list_sinks := list_sinks memory_api;
  create_sink := create_sink memory_api;
  get_sink := get_sink memory_api;
  update_sink := update_sink memory_api;
  delete_sink := delete_sink memory_api;
|}.

(** A bridge that knows no embedded message type: every document is
    refused. *)
Definition json_dumps_none : pyval → result string := λ _, raise TypeError.
Definition Parse_none : string → Any → result Any := λ _ _, raise ParseError.

(** ** Error mapping

    A method maps the status [code] of its call to [domain_error] when
    a [GaxError] of the call with that status makes the method raise
    [domain_error], and every other exception of the call is the one the
    method raises. *)
Definition maps_status {A B} (code : StatusCode) (domain_error : exn)
    (reply : result B) (outcome : result A) : Prop :=
  (∀ cause, reply = inl (GaxError cause) →
            exc_to_code cause = Some code →
            outcome = inl domain_error) ∧
  (∀ exc, reply = inl exc →
          (∀ cause, exc = GaxError cause → exc_to_code cause ≠ Some code) →
          outcome = inl exc).

(** The outcome of a method whose handler names one status, read off
    the reply of its call. *)
Definition handled {A B} (code : StatusCode) (domain_error : exn)
    (reply : result B) (continue : B → A) : result A :=
  match reply with
  | inl (GaxError cause) =>
      if bool_decide (exc_to_code cause = Some code) then inl domain_error
      else inl (GaxError cause)
  | inl exc => inl exc
  | inr b => inr (continue b)
  end.

(** * Properties *)

(** ** Results *)

Lemma bind_ok {A B} (c : result A) (k : A → result B) (b : B) :
  c ≫= k = inr b → ∃ a, c = inr a ∧ k a = inr b.
Proof. destruct c as [e | a]; [discriminate | eauto]. Qed.

(** ** Paging *)

(** C9: with no token the options carry the first-page sentinel, which is
    no token string (the empty one included); with a token they carry
    that very string, ["abc"] for ["abc"]. *)
Theorem build_paging_options_page_token :
  page_token (_build_paging_options None) = INITIAL_PAGE ∧
  (∀ token, page_token (_build_paging_options None) ≠ PageToken token) ∧
  page_token (_build_paging_options None) ≠ PageToken "" ∧
  (∀ token,
     page_token (_build_paging_options (Some token)) = PageToken token) ∧
  page_token (_build_paging_options (Some "abc")) = PageToken "abc".
Proof. repeat split; try discriminate. Qed.

(** ** Message to mapping *)

(** C3 fails on the code: the nine scalar keys are always in the
    mapping of a message, but so are [http_request] and [operation],
    whatever the two sub-messages hold, because the [if] of each tests a
    message object and that is always true.  The mapping of [LogEntry()],
    whose two sub-messages are the default ones, has both keys, each with
    the sub-mapping of default values. *)
Theorem log_entry_pb_to_mapping_always_all_keys :
  (∀ entry_pb,
     Forall (λ key, is_Some (_log_entry_pb_to_mapping entry_pb !! key))
       [ "log_name"; "resource"; "severity"; "insert_id"; "timestamp";
         "labels"; "text_payload"; "json_payload"; "proto_payload";
         "http_request"; "operation" ]) ∧
  http_request LogEntry_default = HttpRequest_default ∧
  _log_entry_pb_to_mapping LogEntry_default !! "http_request"
  = Some (VDict {[ "request_method" := VStr ""; "request_url" := VStr "";
                   "status" := VInt 0; "referer" := VStr "";
                   "user_agent" := VStr ""; "cache_hit" := VBool false;
                   "request_size" := VInt 0; "response_size" := VInt 0;
                   "remote_ip" := VStr "" ]}) ∧
  operation LogEntry_default = LogEntryOperation_default ∧
  _log_entry_pb_to_mapping LogEntry_default !! "operation"
  = Some (VDict {[ "producer" := VStr ""; "id" := VStr "";
                   "first" := VBool false; "last" := VBool false ]}).
Proof.
  split; [| by repeat split].
  intros entry_pb. repeat constructor; eexists; reflexivity.
Qed.

(** ** Sinks *)

(** C5: a sink mapping with the keys [name], [destination] and [filter]
    comes back from the message built of those three values equal on
    the three keys and with no key besides; when it has no other key it
    comes back whole. *)
Theorem sink_mapping_round_trip (mapping : gmap string pyval)
    (name destination filter_ : string) :
  mapping !! "name" = Some (VStr name) →
  mapping !! "destination" = Some (VStr destination) →
  mapping !! "filter" = Some (VStr filter_) →
  let back := _log_sink_pb_to_mapping (mkLogSink name filter_ destination) in
  back !! "name" = mapping !! "name" ∧
  back !! "destination" = mapping !! "destination" ∧
  back !! "filter" = mapping !! "filter" ∧
  dom back = ({[ "name"; "destination"; "filter" ]} : gset string) ∧
  (dom mapping = ({[ "name"; "destination"; "filter" ]} : gset string) →
   back = mapping).
Proof.
  intros Hn Hd Hf back.
  assert (Hdom : dom back
                 = ({[ "name"; "destination"; "filter" ]} : gset string)).
  { unfold back, _log_sink_pb_to_mapping.
    cbn [list_to_map foldr pb_name pb_destination pb_filter uncurry].
    rewrite !dom_insert_L, dom_empty_L. set_solver. }
  rewrite Hn, Hd, Hf. repeat split; try done.
  intros Hm. apply map_eq. intros key.
  destruct (decide (key ∈ dom back)) as [Hin | Hout]; rewrite Hdom in *.
  - apply elem_of_union in Hin as [Hin | Hin];
      [apply elem_of_union in Hin as [Hin | Hin] |];
      apply elem_of_singleton in Hin; subst key;
      rewrite ?Hn, ?Hd, ?Hf; reflexivity.
  - transitivity (@None pyval); [| symmetry];
      apply not_elem_of_dom; congruence.
Qed.

Lemma sink_mapping_round_trip_witness :
  let mapping : gmap string pyval :=
    {[ "name" := VStr "projects/p1/sinks/s1";
       "destination" := VStr "storage.googleapis.com/bucket";
       "filter" := VStr "severity>=ERROR" ]} in
  _log_sink_pb_to_mapping
    (mkLogSink "projects/p1/sinks/s1" "severity>=ERROR"
       "storage.googleapis.com/bucket")
  = mapping.
Proof.
  intros mapping.
  apply (sink_mapping_round_trip mapping "projects/p1/sinks/s1"
           "storage.googleapis.com/bucket" "severity>=ERROR");
    [reflexivity | reflexivity | reflexivity |].
  unfold mapping. rewrite !dom_insert_L, dom_singleton_L. set_solver.
Defined.

(** What a handler of the sink methods does with the exception of the
    call: the status it names becomes the domain error on the path, and
    any other exception goes on as it is. *)
Lemma try_except_status {A} (body : api_call A) (code : StatusCode)
    (domain_error : exn) (trace : list rpc_call) :
  let handled :=
    try_except body
      (λ exc,
         match exc with
         | GaxError cause =>
             if bool_decide (exc_to_code cause = Some code)
             then throw domain_error
             else throw exc
         | _ => throw exc
         end) trace in
  handled.1 = (body trace).1 ∧
  (∀ cause, (body trace).2 = inl (GaxError cause) →
            exc_to_code cause = Some code → handled.2 = inl domain_error) ∧
  (∀ exc, (body trace).2 = inl exc →
          (∀ cause, exc = GaxError cause → exc_to_code cause ≠ Some code) →
          handled.2 = inl exc) ∧
  (∀ a, (body trace).2 = inr a → handled.2 = inr a).
Proof.
  unfold try_except. destruct (body trace) as [trace' [exc | a]]; cbn.
  - destruct exc as [cause | | | | | | | | |]; cbn.
    1: destruct (decide (exc_to_code cause = Some code)) as [Hc | Hc];
       [rewrite (bool_decide_eq_true_2 _ Hc)
       | rewrite (bool_decide_eq_false_2 _ Hc)]; cbn.
    all: repeat split; try done.
    + intros exc [= <-] Hne. exfalso. by eapply Hne.
    + intros cause' [= <-] Hc'. done.
  - repeat split; done.
Qed.

(** C1: [sink_create] calls [create_sink] once, with the sink named
    [projects/<project>/sinks/<sink_name>]; a [GaxError] of that call
    whose status is [FAILED_PRECONDITION] becomes [Conflict] on that
    path, and every other exception of the call is raised as it came. *)
Theorem sink_create_conflict (api : GaxApi)
    (project sink_name filter_ destination : string) (trace : list rpc_call) :
  let path := "projects/" ++ project ++ "/sinks/" ++ sink_name in
  let trace' :=
    (trace ++ [CreateSink ("projects/" ++ project)
                 (mkLogSink path filter_ destination) None])%list in
  let run :=
    _SinksAPI.sink_create api project sink_name filter_ destination trace in
  run.1 = trace' ∧
  (∀ cause, create_sink api trace' = inl (GaxError cause) →
            exc_to_code cause = Some FAILED_PRECONDITION →
            run.2 = inl (Conflict path)) ∧
  (∀ exc, create_sink api trace' = inl exc →
          (∀ cause, exc = GaxError cause →
                    exc_to_code cause ≠ Some FAILED_PRECONDITION) →
          run.2 = inl exc).
Proof.
  intros path trace' run. unfold run, _SinksAPI.sink_create.
  match goal with
  | |- context [try_except ?body _ trace] =>
      destruct (try_except_status body FAILED_PRECONDITION (Conflict path) trace)
        as (Htrace & Hconflict & Hother & _);
      assert (Hbody : body trace
                      = (trace', create_sink api trace' ≫= λ _, inr ()))
  end.
  { unfold rpc, mbind, api_call_bind, mret, api_call_ret. fold path trace'.
    destruct (create_sink api trace'); reflexivity. }
  rewrite Hbody in Htrace, Hconflict, Hother. cbn [fst snd] in *.
  split; [exact Htrace |]. split.
  - intros cause Hcall Hcode. apply (Hconflict cause); [| exact Hcode].
    by rewrite Hcall.
  - intros exc Hcall Hne. apply Hother; [| exact Hne]. by rewrite Hcall.
Qed.

Lemma sink_create_conflict_witness :
  let created :=
    (_SinksAPI.sink_create memory_api "p1" "s1" "severity>=ERROR"
       "storage.googleapis.com/bucket" []).1 in
  _SinksAPI.sink_create memory_api "p1" "s1" "severity>=ERROR"
    "storage.googleapis.com/bucket" created
  = ((created ++ created)%list, inl (Conflict "projects/p1/sinks/s1")).
Proof.
  intros created.
  destruct (sink_create_conflict memory_api "p1" "s1" "severity>=ERROR"
              "storage.googleapis.com/bucket" created)
    as (Htrace & Hconflict & _).
  apply injective_projections; [exact Htrace |].
  apply (Hconflict (AbortionError (Some FAILED_PRECONDITION))); reflexivity.
Defined.

Lemma handled_maps_status {A B} (code : StatusCode) (domain_error : exn)
    (reply : result B) (continue : B → A) :
  maps_status code domain_error reply
    (handled code domain_error reply continue).
Proof.
  unfold maps_status, handled. split.
  - intros cause -> Hcode. by rewrite (bool_decide_eq_true_2 _ Hcode).
  - intros exc -> Hne. destruct exc as [cause | | | | | | | | |]; try done.
    by rewrite (bool_decide_eq_false_2 _ (Hne cause eq_refl)).
Qed.

Ltac run_method reply :=
  unfold try_except, rpc, throw, handled, mbind, api_call_bind, mret,
    api_call_ret;
  destruct (reply _) as [[cause | | | | | | | | |] | ?]; cbn;
  try reflexivity;
  match goal with
  | |- context [bool_decide ?P] => destruct (bool_decide P)
  end; reflexivity.

Lemma sink_get_run (api : GaxApi) (project sink_name : string)
    (trace : list rpc_call) :
  let path := "projects/" ++ project ++ "/sinks/" ++ sink_name in
  let trace' := (trace ++ [GetSink path None])%list in
  _SinksAPI.sink_get api project sink_name trace
  = (trace', handled NOT_FOUND (NotFound path) (get_sink api trace')
               _log_sink_pb_to_mapping).
Proof.
  intros path trace'. subst path trace'. unfold _SinksAPI.sink_get.
  run_method (get_sink api).
Qed.

Lemma sink_update_run (api : GaxApi)
    (project sink_name filter_ destination : string) (trace : list rpc_call) :
  let path := "projects/" ++ project ++ "/sinks/" ++ sink_name in
  let sink_pb := mkLogSink path filter_ destination in
  let trace' := (trace ++ [UpdateSink path sink_pb None])%list in
  _SinksAPI.sink_update api project sink_name filter_ destination trace
  = (trace', handled NOT_FOUND (NotFound path) (update_sink api trace')
               (λ _, _log_sink_pb_to_mapping sink_pb)).
Proof.
  intros path sink_pb trace'. subst path sink_pb trace'.
  unfold _SinksAPI.sink_update. run_method (update_sink api).
Qed.

Lemma sink_delete_run (api : GaxApi) (project sink_name : string)
    (trace : list rpc_call) :
  let path := "projects/" ++ project ++ "/sinks/" ++ sink_name in
  let trace' := (trace ++ [DeleteSink path None])%list in
  _SinksAPI.sink_delete api project sink_name trace
  = (trace', handled NOT_FOUND (NotFound path) (delete_sink api trace')
               (λ u, u)).
Proof.
  intros path trace'. subst path trace'. unfold _SinksAPI.sink_delete.
  run_method (delete_sink api).
Qed.

(** C2: each of [sink_get], [sink_update] and [sink_delete] makes its one
    call on the path [projects/<project>/sinks/<sink_name>]; a
    [GaxError] of the call whose status is [NOT_FOUND] becomes
    [NotFound] on that path, and every other exception of the call is
    raised as it came. *)
Theorem sink_methods_not_found (api : GaxApi)
    (project sink_name filter_ destination : string) (trace : list rpc_call) :
  let path := "projects/" ++ project ++ "/sinks/" ++ sink_name in
  let after call := (trace ++ [call])%list in
  let got := _SinksAPI.sink_get api project sink_name trace in
  let updated :=
    _SinksAPI.sink_update api project sink_name filter_ destination trace in
  let deleted := _SinksAPI.sink_delete api project sink_name trace in
  (got.1 = after (GetSink path None) ∧
   maps_status NOT_FOUND (NotFound path)
     (get_sink api (after (GetSink path None))) got.2) ∧
  (updated.1
     = after (UpdateSink path (mkLogSink path filter_ destination) None) ∧
   maps_status NOT_FOUND (NotFound path)
     (update_sink api
        (after (UpdateSink path (mkLogSink path filter_ destination) None)))
     updated.2) ∧
  (deleted.1 = after (DeleteSink path None) ∧
   maps_status NOT_FOUND (NotFound path)
     (delete_sink api (after (DeleteSink path None))) deleted.2).
Proof.
  intros path after got updated deleted. unfold got, updated, deleted.
  rewrite sink_get_run, sink_update_run, sink_delete_run. cbn [fst snd].
  repeat split; try apply handled_maps_status.
Qed.

Lemma sink_methods_not_found_witness :
  (_SinksAPI.sink_get memory_api "p1" "s1" []).2
    = inl (NotFound "projects/p1/sinks/s1") ∧
  (_SinksAPI.sink_update memory_api "p1" "s1" "severity>=ERROR"
     "storage.googleapis.com/bucket" []).2
    = inl (NotFound "projects/p1/sinks/s1") ∧
  (_SinksAPI.sink_delete memory_api "p1" "s1" []).2
    = inl (NotFound "projects/p1/sinks/s1") ∧
  (_SinksAPI.sink_get denied_api "p1" "s1" []).2
    = status_error PERMISSION_DENIED.
Proof.
  destruct (sink_methods_not_found memory_api "p1" "s1" "severity>=ERROR"
              "storage.googleapis.com/bucket" [])
    as ((_ & Hget & _) & (_ & Hupdate & _) & (_ & Hdelete & _)).
  destruct (sink_methods_not_found denied_api "p1" "s1" "" "" [])
    as ((_ & _ & Hother) & _).
  split; [apply (Hget (AbortionError (Some NOT_FOUND))); reflexivity |].
  split; [apply (Hupdate (AbortionError (Some NOT_FOUND))); reflexivity |].
  split; [apply (Hdelete (AbortionError (Some NOT_FOUND))); reflexivity |].
  apply Hother; [reflexivity |].
  intros cause [= <-]. discriminate.
Defined.

(** C8: when the update call returns, [sink_update] returns the mapping
    of the request it sent, [name] the path, [filter] and [destination]
    as given, whatever sink the server answered with. *)
Theorem sink_update_returns_request (api : GaxApi)
    (project sink_name filter_ destination : string) (trace : list rpc_call)
    (answer : LogSink) :
  let path := "projects/" ++ project ++ "/sinks/" ++ sink_name in
  let trace' :=
    (trace ++ [UpdateSink path (mkLogSink path filter_ destination) None])%list in
  update_sink api trace' = inr answer →
  _SinksAPI.sink_update api project sink_name filter_ destination trace
  = (trace',
     inr {[ "name" := VStr path;
            "filter" := VStr filter_;
            "destination" := VStr destination ]}).
Proof.
  intros path trace' Hanswer. rewrite sink_update_run.
  fold path. fold trace'. rewrite Hanswer. cbn [handled].
  reflexivity.
Qed.

Lemma sink_update_returns_request_witness :
  let created :=
    (_SinksAPI.sink_create memory_api "p1" "s1" "severity>=ERROR"
       "storage.googleapis.com/old" []).1 in
  (_SinksAPI.sink_update memory_api "p1" "s1" "severity>=WARNING"
     "storage.googleapis.com/new" created).2
  = inr {[ "name" := VStr "projects/p1/sinks/s1";
           "filter" := VStr "severity>=WARNING";
           "destination" := VStr "storage.googleapis.com/new" ]}.
Proof.
  intros created.
  rewrite (sink_update_returns_request memory_api "p1" "s1"
             "severity>=WARNING" "storage.googleapis.com/new" created
             (mkLogSink "projects/p1/sinks/s1" "severity>=WARNING"
                "storage.googleapis.com/new"));
    reflexivity.
Defined.

(** ** Mapping to message *)

Section MappingToMessage.

Variable json_dumps : pyval → result string.
Variable Parse : string → Any → result Any.

(** The two key-by-key copies, on the map they fill. *)
Lemma labels_loop (items : list (string * pyval)) (e e' : LogEntry) :
  for_each (λ entry_pb '(key, value),
      s ← check_str value;
      ok (set_labels (<[key := s]> (labels entry_pb)) entry_pb)) items e
  = inr e' →
  ∃ ls, e' = set_labels ls e ∧
        for_each (λ ls '(key, value),
            s ← check_str value; ok (<[key := s]> ls)) items (labels e)
        = inr ls.
Proof.
  revert e. induction items as [| [key value] items IH]; intros e H.
  - injection H as <-. exists (labels e). by destruct e.
  - cbn [for_each] in H. apply bind_ok in H as (e1 & H1 & H).
    apply bind_ok in H1 as (s & Hs & [= <-]).
    apply IH in H as (ls & -> & Hls). exists ls. split; [reflexivity |].
    cbn [for_each]. rewrite Hs. exact Hls.
Qed.

Lemma json_payload_loop_set (items : list (string * pyval))
    (e e' : LogEntry) (fields0 : Struct) :
  payload e = JsonPayload fields0 →
  for_each (λ entry_pb '(key, value),
      s ← Struct_setitem (json_payload entry_pb) key value;
      ok (set_json_payload s entry_pb)) items e
  = inr e' →
  ∃ fields, e' = set_json_payload fields e ∧
            for_each (λ fields '(key, value),
                Struct_setitem fields key value) items fields0
            = inr fields.
Proof.
  revert e fields0.
  induction items as [| [key value] items IH]; intros e fields0 He H.
  - injection H as <-. exists fields0. split; [| done].
    destruct e. cbn in He. by subst.
  - cbn [for_each] in H. apply bind_ok in H as (e1 & H1 & H).
    apply bind_ok in H1 as (s & Hs & [= <-]).
    apply (IH _ s) in H as (fields & -> & Hfields); [| done].
    exists fields. split; [reflexivity |]. cbn [for_each].
    unfold json_payload in Hs. rewrite He in Hs. by rewrite Hs.
Qed.

(** The loop over an empty dictionary writes nothing; over any other it
    leaves [json_payload] the member that is set. *)
Lemma json_payload_loop (items : list (string * pyval)) (e e' : LogEntry) :
  for_each (λ entry_pb '(key, value),
      s ← Struct_setitem (json_payload entry_pb) key value;
      ok (set_json_payload s entry_pb)) items e
  = inr e' →
  ∃ fields,
    for_each (λ fields '(key, value), Struct_setitem fields key value)
      items (json_payload e) = inr fields ∧
    (items = [] ∧ e' = e ∨ items ≠ [] ∧ e' = set_json_payload fields e).
Proof.
  destruct items as [| [key value] items]; intros H.
  - injection H as <-. exists (json_payload e). split; [done | by left].
  - cbn [for_each] in H. apply bind_ok in H as (e1 & H1 & H).
    apply bind_ok in H1 as (s & Hs & [= <-]).
    apply (json_payload_loop_set _ _ _ s) in H as (fields & -> & Hfields);
      [| done].
    exists fields. split; [| by right]. cbn [for_each]. by rewrite Hs.
Qed.

(** The conversion is field by field: what a key of the mapping holds
    decides its own field of the message and no other, and the field of
    an absent key is the default one.  The three payloads are one
    [oneof]: of those the mapping has, the last one written is the one
    the message keeps. *)
Lemma mapping_to_pb_fields (mapping : gmap string pyval) (pb : LogEntry) :
  _log_entry_mapping_to_pb json_dumps Parse mapping = inr pb →
  match mapping !! "log_name" with
  | Some value => check_str value = inr (log_name pb)
  | None => log_name pb = ""
  end ∧
  match mapping !! "insert_id" with
  | Some value => check_str value = inr (insert_id pb)
  | None => insert_id pb = ""
  end ∧
  match mapping !! "text_payload" with
  | Some value =>
      ∃ s, check_str value = inr s ∧
           match mapping !! "json_payload", mapping !! "proto_payload" with
           | None, None => text_payload pb = s
           | _, Some _ => text_payload pb = ""
           | Some info, None =>
               ∀ items, py_items info = inr items →
                        text_payload pb = if items is [] then s else ""
           end
  | None => text_payload pb = ""
  end ∧
  match mapping !! "resource" with
  | Some res =>
      (v ← py_getitem res "type"; check_str v)
      = inr (resource_type (resource pb))
      ∧ resource_labels (resource pb) = ∅
  | None => resource pb = MonitoredResource_default
  end ∧
  match mapping !! "severity" with
  | Some (VStr name) => LogSeverity_Value name = inr (severity pb)
  | Some value => check_severity value = inr (severity pb)
  | None => severity pb = 0
  end ∧
  match mapping !! "timestamp" with
  | Some when => _datetime_to_pb_timestamp when = inr (timestamp pb)
  | None => timestamp pb = Timestamp_default
  end ∧
  match mapping !! "labels" with
  | Some info =>
      ∃ items, py_items info = inr items ∧
               for_each (λ ls '(key, value),
                   s ← check_str value; ok (<[key := s]> ls)) items ∅
               = inr (labels pb)
  | None => labels pb = ∅
  end ∧
  match mapping !! "json_payload" with
  | Some info =>
      ∃ items fields,
        py_items info = inr items ∧
        for_each (λ fields '(key, value),
            Struct_setitem fields key value) items ∅
        = inr fields ∧
        match mapping !! "proto_payload" with
        | None => json_payload pb = fields
        | Some _ => json_payload pb = ∅
        end
  | None => json_payload pb = ∅
  end ∧
  match mapping !! "proto_payload" with
  | Some value =>
      (text ← json_dumps value; Parse text Any_default)
      = inr (proto_payload pb)
  | None => proto_payload pb = Any_default
  end ∧
  match mapping !! "http_request" with
  | Some info =>
      _http_request_mapping_to_pb info HttpRequest_default
      = inr (http_request pb)
  | None => http_request pb = HttpRequest_default
  end ∧
  match mapping !! "operation" with
  | Some info =>
      _log_operation_mapping_to_pb info LogEntryOperation_default
      = inr (operation pb)
  | None => operation pb = LogEntryOperation_default
  end.
Proof.
  unfold _log_entry_mapping_to_pb. cbn [for_each]. intros H.
  apply bind_ok in H as (e3 & H123 & H).
  apply bind_ok in H123 as (e1 & H1 & H123).
  apply bind_ok in H123 as (e2 & H2 & H3).
  apply bind_ok in H3 as (e3' & H3 & [= ->]).
  apply bind_ok in H as (e4 & H4 & H).
  apply bind_ok in H as (e5 & H5 & H).
  apply bind_ok in H as (e6 & H6 & H).
  apply bind_ok in H as (e7 & H7 & H).
  apply bind_ok in H as (e8 & H8 & H).
  apply bind_ok in H as (e9 & H9 & H).
  apply bind_ok in H as (e10 & H10 & H).
  apply bind_ok in H as (e11 & H11 & [= ->]).
  assert (F1 : ∃ x, e1 = set_log_name x LogEntry_default ∧
                    match mapping !! "log_name" with
                    | Some value => check_str value = inr x
                    | None => x = ""
                    end).
  { destruct (mapping !! "log_name") as [value |].
    - apply bind_ok in H1 as (s & Hs & [= <-]). eauto.
    - injection H1 as <-. by exists "". }
  assert (F2 : ∃ x, e2 = set_insert_id x e1 ∧
                    match mapping !! "insert_id" with
                    | Some value => check_str value = inr x
                    | None => x = insert_id e1
                    end).
  { destruct (mapping !! "insert_id") as [value |].
    - apply bind_ok in H2 as (s & Hs & [= <-]). eauto.
    - injection H2 as <-. exists (insert_id e1). by destruct e1. }
  assert (F3 : ∃ x, e3 = set_payload x e2 ∧
                    match mapping !! "text_payload" with
                    | Some value =>
                        ∃ s, check_str value = inr s ∧ x = TextPayload s
                    | None => x = payload e2
                    end).
  { destruct (mapping !! "text_payload") as [value |].
    - apply bind_ok in H3 as (s & Hs & [= <-]). eauto.
    - injection H3 as <-. exists (payload e2). by destruct e2. }
  assert (F4 : ∃ x, e4 = set_resource x e3 ∧
                    match mapping !! "resource" with
                    | Some res =>
                        (v ← py_getitem res "type"; check_str v)
                        = inr (resource_type x)
                        ∧ resource_labels x = resource_labels (resource e3)
                    | None => x = resource e3
                    end).
  { destruct (mapping !! "resource") as [res |].
    - apply bind_ok in H4 as (v & Hv & H4).
      apply bind_ok in H4 as (type & Htype & [= <-]).
      eexists. split; [reflexivity |]. cbn. rewrite Hv. by cbn.
    - injection H4 as <-. exists (resource e3). by destruct e3. }
  assert (F5 : ∃ x, e5 = set_severity x e4 ∧
                    match mapping !! "severity" with
                    | Some (VStr name) => LogSeverity_Value name = inr x
                    | Some value => check_severity value = inr x
                    | None => x = severity e4
                    end).
  { destruct (mapping !! "severity") as [value |].
    - apply bind_ok in H5 as (v & Hv & H5).
      apply bind_ok in H5 as (n & Hn & [= <-]).
      exists n. split; [reflexivity |].
      destruct value; try (injection Hv as <-; exact Hn).
      apply bind_ok in Hv as (n' & Hn' & [= <-]). rewrite Hn'.
      unfold check_severity, check_int in Hn. by destruct (bool_decide _).
    - injection H5 as <-. exists (severity e4). by destruct e4. }
  assert (F6 : ∃ x, e6 = set_timestamp x e5 ∧
                    match mapping !! "timestamp" with
                    | Some when => _datetime_to_pb_timestamp when = inr x
                    | None => x = timestamp e5
                    end).
  { destruct (mapping !! "timestamp") as [when |].
    - apply bind_ok in H6 as (t & Ht & [= <-]). eauto.
    - injection H6 as <-. exists (timestamp e5). by destruct e5. }
  assert (F7 : ∃ x, e7 = set_labels x e6 ∧
                    match mapping !! "labels" with
                    | Some info =>
                        ∃ items, py_items info = inr items ∧
                                 for_each (λ ls '(key, value),
                                     s ← check_str value; ok (<[key := s]> ls))
                                   items (labels e6)
                                 = inr x
                    | None => x = labels e6
                    end).
  { destruct (mapping !! "labels") as [info |].
    - apply bind_ok in H7 as (items & Hitems & H7).
      apply labels_loop in H7 as (ls & -> & Hls). eauto.
    - injection H7 as <-. exists (labels e6). by destruct e6. }
  assert (F8 : ∃ x, e8 = set_payload x e7 ∧
                    match mapping !! "json_payload" with
                    | Some info =>
                        ∃ items fields,
                          py_items info = inr items ∧
                          for_each (λ fields '(key, value),
                              Struct_setitem fields key value)
                            items (json_payload e7)
                          = inr fields ∧
                          (items = [] ∧ x = payload e7 ∨
                           items ≠ [] ∧ x = JsonPayload fields)
                    | None => x = payload e7
                    end).
  { destruct (mapping !! "json_payload") as [info |].
    - apply bind_ok in H8 as (items & Hitems & H8).
      apply json_payload_loop in H8
        as (fields & Hfields & [[-> ->] | [Hitems' ->]]).
      + exists (payload e7). split; [by destruct e7 |].
        exists [], fields. eauto.
      + exists (JsonPayload fields). split; [reflexivity |].
        exists items, fields. eauto.
    - injection H8 as <-. exists (payload e7). by destruct e7. }
  assert (F9 : ∃ x, e9 = set_payload x e8 ∧
                    match mapping !! "proto_payload" with
                    | Some value =>
                        ∃ a, (text ← json_dumps value;
                              Parse text (proto_payload e8)) = inr a ∧
                             x = ProtoPayload a
                    | None => x = payload e8
                    end).
  { destruct (mapping !! "proto_payload") as [value |].
    - apply bind_ok in H9 as (text & Htext & H9).
      apply bind_ok in H9 as (a & Ha & [= <-]).
      exists (ProtoPayload a). split; [reflexivity |]. exists a.
      by rewrite Htext.
    - injection H9 as <-. exists (payload e8). by destruct e8. }
  assert (F10 : ∃ x, e10 = set_http_request x e9 ∧
                     match mapping !! "http_request" with
                     | Some info =>
                         _http_request_mapping_to_pb info (http_request e9)
                         = inr x
                     | None => x = http_request e9
                     end).
  { destruct (mapping !! "http_request") as [info |].
    - apply bind_ok in H10 as (request & Hrequest & [= <-]). eauto.
    - injection H10 as <-. exists (http_request e9). by destruct e9. }
  assert (F11 : ∃ x, pb = set_operation x e10 ∧
                     match mapping !! "operation" with
                     | Some info =>
                         _log_operation_mapping_to_pb info (operation e10)
                         = inr x
                     | None => x = operation e10
                     end).
  { destruct (mapping !! "operation") as [info |].
    - apply bind_ok in H11 as (op & Hop & [= <-]). eauto.
    - injection H11 as <-. exists (operation e10). by destruct e10. }
  clear H1 H2 H3 H4 H5 H6 H7 H8 H9 H10 H11.
  destruct F1 as (x1 & -> & F1), F2 as (x2 & -> & F2), F3 as (x3 & -> & F3),
    F4 as (x4 & -> & F4), F5 as (x5 & -> & F5), F6 as (x6 & -> & F6),
    F7 as (x7 & -> & F7), F8 as (x8 & -> & F8), F9 as (x9 & -> & F9),
    F10 as (x10 & -> & F10), F11 as (x11 & -> & F11).
  cbn in F2, F3, F4, F5, F6, F7, F8, F9, F10, F11 |- *.
  unfold text_payload, json_payload, proto_payload in *.
  cbn in F8, F9 |- *.
  repeat split; try assumption.
  all: destruct (mapping !! "text_payload") as [text |],
         (mapping !! "json_payload") as [info |],
         (mapping !! "proto_payload") as [proto |].
  all: repeat match goal with
       | H : ∃ _, _ |- _ => destruct H
       | H : _ ∧ _ |- _ => destruct H
       | H : _ ∨ _ |- _ => destruct H
       end; subst; cbn in *; simplify_eq; eauto 10.
  all: eexists; split; [done |]; intros items Hitems.
  all: match goal with
       | H : py_items ?info = inr _, H' : py_items ?info = inr _ |- _ =>
           rewrite H in H'; injection H' as <-
       end.
  all: try reflexivity.
  all: match goal with
       | |- _ = (if ?l is [] then _ else _) => by destruct l
       end.
Qed.

Abbreviation convert := (_log_entry_mapping_to_pb json_dumps Parse).

(** C4: the conversion starts from the default message and a field
    whose key the mapping lacks is the default one in the message it
    returns; the empty mapping gives the default [LogEntry]; a mapping
    with [labels] set to [{"a": "b"}] gives a message whose labels are
    exactly that map. *)
Theorem mapping_to_pb_absent_keys :
  (∀ mapping pb,
     convert mapping = inr pb →
     (mapping !! "log_name" = None → log_name pb = "") ∧
     (mapping !! "insert_id" = None → insert_id pb = "") ∧
     (mapping !! "text_payload" = None → text_payload pb = "") ∧
     (mapping !! "resource" = None → resource pb = MonitoredResource_default) ∧
     (mapping !! "severity" = None → severity pb = 0) ∧
     (mapping !! "timestamp" = None → timestamp pb = Timestamp_default) ∧
     (mapping !! "labels" = None → labels pb = ∅) ∧
     (mapping !! "json_payload" = None → json_payload pb = ∅) ∧
     (mapping !! "proto_payload" = None → proto_payload pb = Any_default) ∧
     (mapping !! "http_request" = None →
      http_request pb = HttpRequest_default) ∧
     (mapping !! "operation" = None →
      operation pb = LogEntryOperation_default)) ∧
  convert ∅ = inr LogEntry_default ∧
  (∀ mapping pb,
     mapping !! "labels" = Some (VDict {[ "a" := VStr "b" ]}) →
     convert mapping = inr pb →
     labels pb = {[ "a" := "b" ]}) ∧
  convert {[ "labels" := VDict {[ "a" := VStr "b" ]} ]}
  = inr (set_labels {[ "a" := "b" ]} LogEntry_default).
Proof.
  split; [| split; [reflexivity | split; [| reflexivity]]].
  - intros mapping pb H. apply mapping_to_pb_fields in H.
    destruct H as (F1 & F2 & F3 & F4 & F5 & F6 & F7 & F8 & F9 & F10 & F11).
    repeat split; intros Habsent; rewrite Habsent in *; assumption.
  - intros mapping pb Hlabels H. apply mapping_to_pb_fields in H.
    destruct H as (_ & _ & _ & _ & _ & _ & F7 & _).
    rewrite Hlabels in F7. destruct F7 as (items & [= <-] & Hitems).
    rewrite map_to_list_singleton in Hitems. by injection Hitems as <-.
Qed.

Lemma assoc_None {A} (key : string) (table : list (string * A)) :
  key ∉ table.*1 → assoc key table = None.
Proof.
  induction table as [| [k a] table IH]; [done |].
  cbn. intros Hkey. apply not_elem_of_cons in Hkey as [Hne Hkey].
  rewrite bool_decide_eq_false_2 by congruence. by apply IH.
Qed.

(** C7: a [severity] given as the name of a severity is looked up in
    the enumeration, and the conversion goes on as with the number found:
    ["ERROR"] as with 500, the value of [ERROR].  A string that is no
    name of the enumeration makes the conversion raise. *)
Theorem mapping_to_pb_severity_name :
  (∀ mapping name n,
     mapping !! "severity" = Some (VStr name) →
     LogSeverity_Value name = inr n →
     convert mapping = convert (<["severity" := VInt n]> mapping)) ∧
  LogSeverity_Value "ERROR" = inr 500 ∧
  convert {[ "severity" := VStr "ERROR" ]}
  = convert {[ "severity" := VInt 500 ]} ∧
  convert {[ "severity" := VStr "ERROR" ]}
  = inr (set_severity 500 LogEntry_default) ∧
  (∀ mapping name,
     mapping !! "severity" = Some (VStr name) →
     name ∉ LogSeverity_values.*1 →
     ∃ exc, convert mapping = inl exc) ∧
  convert {[ "severity" := VStr "SEVERE" ]} = inl ValueError.
Proof.
  split; [| split; [reflexivity | split; [reflexivity | split; [reflexivity |]]]];
    [| split; [| reflexivity]].
  - intros mapping name n Hname Hvalue. unfold _log_entry_mapping_to_pb.
    cbn [for_each].
    assert (Hother : ∀ key, key ≠ "severity" →
              <["severity" := VInt n]> mapping !! key = mapping !! key)
      by (intros key Hkey; by apply lookup_insert_ne).
    rewrite (Hother "log_name"), (Hother "insert_id"),
      (Hother "text_payload"), (Hother "resource"), (Hother "timestamp"),
      (Hother "labels"), (Hother "json_payload"), (Hother "proto_payload"),
      (Hother "http_request"), (Hother "operation") by done.
    rewrite lookup_insert_eq, Hname.
    rewrite Hvalue. reflexivity.
  - intros mapping name Hname Hunknown.
    destruct (convert mapping) as [exc | pb] eqn:H; [by exists exc |].
    apply mapping_to_pb_fields in H.
    destruct H as (_ & _ & _ & _ & F5 & _). rewrite Hname in F5.
    unfold LogSeverity_Value in F5. by rewrite (assoc_None _ _ Hunknown) in F5.
Qed.

(** C10: the mapping of a message has the number of the severity under
    [severity], never a name; so a mapping whose [severity] is a name,
    ["ERROR"] say, comes back from the message with the number in its
    place and not with the string it had. *)
Theorem severity_comes_back_numeric :
  (∀ entry_pb,
     _log_entry_pb_to_mapping entry_pb !! "severity"
     = Some (VInt (severity entry_pb))) ∧
  (∀ entry_pb name,
     _log_entry_pb_to_mapping entry_pb !! "severity" ≠ Some (VStr name)) ∧
  (∀ mapping name pb,
     mapping !! "severity" = Some (VStr name) →
     convert mapping = inr pb →
     LogSeverity_Value name = inr (severity pb) ∧
     _log_entry_pb_to_mapping pb !! "severity" = Some (VInt (severity pb)) ∧
     _log_entry_pb_to_mapping pb !! "severity" ≠ mapping !! "severity") ∧
  (∃ pb, convert {[ "severity" := VStr "ERROR" ]} = inr pb ∧
         _log_entry_pb_to_mapping pb !! "severity" = Some (VInt 500)).
Proof.
  assert (Hback : ∀ entry_pb,
            _log_entry_pb_to_mapping entry_pb !! "severity"
            = Some (VInt (severity entry_pb))).
  { intros entry_pb. unfold _log_entry_pb_to_mapping.
    destruct (HttpRequest_bool _), (LogEntryOperation_bool _); reflexivity. }
  split; [exact Hback |]. split; [| split].
  - intros entry_pb name. by rewrite Hback.
  - intros mapping name pb Hname H. apply mapping_to_pb_fields in H.
    destruct H as (_ & _ & _ & _ & F5 & _). rewrite Hname in F5.
    rewrite Hback, Hname. done.
  - exists (set_severity 500 LogEntry_default). split; reflexivity.
Qed.

(** ** Batches of entries *)

Lemma comprehension_ok {A B} (f : A → result B) (xs : list A) (ys : list B) :
  comprehension f xs = inr ys ↔ Forall2 (λ x y, f x = inr y) xs ys.
Proof.
  revert ys. induction xs as [| x xs IH]; intros ys; cbn [comprehension].
  - split.
    + intros [= <-]. constructor.
    + intros Hnil. by apply Forall2_nil_inv_l in Hnil as ->.
  - split.
    + intros H. apply bind_ok in H as (y & Hy & H).
      apply bind_ok in H as (ys' & Hys & [= <-]).
      constructor; [exact Hy | by apply IH].
    + intros Hcons. apply Forall2_cons_inv_l in Hcons as (y & ys' & Hy & Hys & ->).
      apply IH in Hys. by rewrite Hy, Hys.
Qed.

Lemma comprehension_raises {A B} (f : A → result B) (xs : list A) :
  Exists (λ x, ∃ exc, f x = inl exc) xs →
  ∃ exc, comprehension f xs = inl exc.
Proof.
  induction 1 as [x xs [exc Hx] | x xs _ [exc IH]]; cbn [comprehension].
  - exists exc. by rewrite Hx.
  - destruct (f x) as [exc' | y]; [by exists exc' |].
    exists exc. by rewrite IH.
Qed.

(** C6, as the code has it: when every mapping of the list converts,
    [write_entries] makes exactly one call, [write_log_entries], with
    the messages of the mappings in their order, the default logger
    name, resource and labels it was given, partial success [False]
    and no options; when a mapping does not convert, it makes no call
    and raises. *)
Theorem write_entries_one_batch (api : GaxApi)
    (entries : list (gmap string pyval)) (logger_name resource labels : pyval)
    (trace : list rpc_call) :
  let run :=
    _LoggingAPI.write_entries json_dumps Parse api entries logger_name
      resource labels trace in
  (∀ entry_pbs,
     Forall2 (λ mapping pb, convert mapping = inr pb) entries entry_pbs →
     let call :=
       WriteLogEntries entry_pbs logger_name resource labels false None in
     length entry_pbs = length entries ∧
     run = ((trace ++ [call])%list,
            write_log_entries api (trace ++ [call])%list)) ∧
  (Exists (λ mapping, ∃ exc, convert mapping = inl exc) entries →
   run.1 = trace ∧ ∃ exc, run.2 = inl exc).
Proof.
  intros run. unfold run, _LoggingAPI.write_entries, lift, rpc, mbind,
    api_call_bind.
  split.
  - intros entry_pbs Hall. split; [symmetry; by eapply Forall2_length |].
    apply comprehension_ok in Hall. by rewrite Hall.
  - intros Hsome. apply comprehension_raises in Hsome as [exc Hexc].
    rewrite Hexc. cbn. eauto.
Qed.

End MappingToMessage.

(** ** Runs *)

Lemma mapping_to_pb_absent_keys_witness :
  let mapping : gmap string pyval :=
    {[ "log_name" := VStr "projects/p1/logs/syslog";
       "labels" := VDict {[ "a" := VStr "b" ]} ]} in
  ∃ pb, _log_entry_mapping_to_pb json_dumps_none Parse_none mapping = inr pb ∧
        log_name pb = "projects/p1/logs/syslog" ∧
        labels pb = {[ "a" := "b" ]} ∧
        severity pb = 0 ∧
        http_request pb = HttpRequest_default ∧
        operation pb = LogEntryOperation_default.
Proof.
  intros mapping.
  destruct (mapping_to_pb_absent_keys json_dumps_none Parse_none)
    as (Habsent & _ & Hlabels & _).
  eexists. split; [reflexivity |].
  match goal with
  | |- log_name ?pb = _ ∧ _ =>
      destruct (Habsent mapping pb eq_refl)
        as (_ & _ & _ & _ & Hseverity & _ & _ & _ & _ & Hrequest & Hoperation);
      pose proof (Hlabels mapping pb eq_refl eq_refl) as Hab
  end.
  split; [reflexivity |]. split; [exact Hab |].
  split; [by apply Hseverity |]. split; [by apply Hrequest |].
  by apply Hoperation.
Defined.

Lemma mapping_to_pb_severity_name_witness :
  let mapping : gmap string pyval :=
    {[ "text_payload" := VStr "disk full"; "severity" := VStr "ERROR" ]} in
  _log_entry_mapping_to_pb json_dumps_none Parse_none mapping
  = _log_entry_mapping_to_pb json_dumps_none Parse_none
      (<["severity" := VInt 500]> mapping) ∧
  ∃ exc,
    _log_entry_mapping_to_pb json_dumps_none Parse_none
      {[ "text_payload" := VStr "disk full"; "severity" := VStr "SEVERE" ]}
    = inl exc.
Proof.
  intros mapping.
  destruct (mapping_to_pb_severity_name json_dumps_none Parse_none)
    as (Hname & _ & _ & _ & Hunknown & _).
  split.
  - apply (Hname mapping "ERROR" 500); reflexivity.
  - apply (Hunknown _ "SEVERE"); [reflexivity |].
    apply (bool_decide_unpack _). vm_compute. exact I.
Defined.

Lemma severity_comes_back_numeric_witness :
  let mapping : gmap string pyval := {[ "severity" := VStr "ERROR" ]} in
  let pb := set_severity 500 LogEntry_default in
  _log_entry_mapping_to_pb json_dumps_none Parse_none mapping = inr pb ∧
  _log_entry_pb_to_mapping pb !! "severity" = Some (VInt 500) ∧
  _log_entry_pb_to_mapping pb !! "severity" ≠ mapping !! "severity".
Proof.
  intros mapping pb.
  destruct (severity_comes_back_numeric json_dumps_none Parse_none)
    as (_ & _ & Hback & _).
  destruct (Hback mapping "ERROR" pb eq_refl eq_refl) as (_ & Hnum & Hne).
  split; [reflexivity |]. split; [exact Hnum | exact Hne].
Defined.

Lemma write_entries_one_batch_witness :
  let entries : list (gmap string pyval) :=
    [ {[ "text_payload" := VStr "first" ]};
      {[ "text_payload" := VStr "second"; "severity" := VStr "ERROR" ]};
      {[ "text_payload" := VStr "third" ]} ] in
  let entry_pbs :=
    [ set_text_payload "first" LogEntry_default;
      set_text_payload "second" (set_severity 500 LogEntry_default);
      set_text_payload "third" LogEntry_default ] in
  _LoggingAPI.write_entries json_dumps_none Parse_none memory_api entries
    (VStr "projects/p1/logs/syslog") VNone VNone []
  = ([WriteLogEntries entry_pbs (VStr "projects/p1/logs/syslog") VNone VNone
        false None],
     inr ()).
Proof.
  intros entries entry_pbs.
  destruct (write_entries_one_batch json_dumps_none Parse_none memory_api
              entries (VStr "projects/p1/logs/syslog") VNone VNone [])
    as (Hone & _).
  apply (Hone entry_pbs). repeat constructor.
Defined.

(** C6, as the spec has it, fails: of these three mappings the second
    has an [operation] without [producer], its conversion raises
    [KeyError], and [write_entries] makes no call at all. *)
Lemma write_entries_no_batch :
  let entries : list (gmap string pyval) :=
    [ {[ "text_payload" := VStr "first" ]};
      {[ "operation" := VDict ∅ ]};
      {[ "text_payload" := VStr "third" ]} ] in
  let run :=
    _LoggingAPI.write_entries json_dumps_none Parse_none memory_api entries
      VNone VNone VNone [] in
  run = ([], inl (KeyError "producer")) ∧ length run.1 ≠ 1%nat.
Proof. split; [reflexivity | discriminate]. Qed.

(** * Further properties *)

(** ** Listing *)

Lemma list_entries_run (api : GaxApi) (projects : list string)
    (filter_ order_by : string) (page_size : Z) (page_token : option string)
    (trace : list rpc_call) :
  let call :=
    ListLogEntries projects filter_ order_by page_size
      (_build_paging_options page_token) in
  let trace' := (trace ++ [call])%list in
  _LoggingAPI.list_entries api projects filter_ order_by page_size page_token
    trace
  = (trace',
     page_iter ← list_log_entries api trace';
     ok (_log_entry_pb_to_mapping <$> page_iter.1, or_None page_iter.2)).
Proof.
  intros call trace'. subst call trace'.
  unfold _LoggingAPI.list_entries, rpc, mbind, api_call_bind, mret,
    api_call_ret.
  by destruct (list_log_entries api _).
Qed.

Lemma list_sinks_run (api : GaxApi) (project : string) (page_size : Z)
    (page_token : option string) (trace : list rpc_call) :
  let call :=
    ListSinks project page_size (_build_paging_options page_token) in
  let trace' := (trace ++ [call])%list in
  _SinksAPI.list_sinks api project page_size page_token trace
  = (trace',
     page_iter ← list_sinks api trace';
     ok (_log_sink_pb_to_mapping <$> page_iter.1, or_None page_iter.2)).
Proof.
  intros call trace'. subst call trace'.
  unfold _SinksAPI.list_sinks, rpc, mbind, api_call_bind, mret, api_call_ret.
  by destruct (list_sinks api _).
Qed.

Lemma or_None_spec (token : string) :
  (or_None token = None ↔ token = "") ∧
  (token ≠ "" → or_None token = Some token).
Proof.
  unfold or_None. destruct (decide (token = "")) as [-> | Hne].
  - by rewrite bool_decide_eq_true_2.
  - rewrite bool_decide_eq_false_2 by done. by split.
Qed.

(** X1: [list_entries] makes one [list_log_entries] call whose options
    carry the first-page sentinel or the given token; an exception of
    that call, whatever its status, is the exception of [list_entries];
    a page comes back as the mappings of its messages, in their order,
    with the token of the next page, or [None] when that token is
    empty. *)
Theorem list_entries_page (api : GaxApi) (projects : list string)
    (filter_ order_by : string) (page_size : Z) (page_token : option string)
    (trace : list rpc_call) :
  let call :=
    ListLogEntries projects filter_ order_by page_size
      (mkCallOptions match page_token with
                     | None => INITIAL_PAGE
                     | Some token => PageToken token
                     end) in
  let trace' := (trace ++ [call])%list in
  let run :=
    _LoggingAPI.list_entries api projects filter_ order_by page_size
      page_token trace in
  run.1 = trace' ∧
  (∀ exc, list_log_entries api trace' = inl exc → run.2 = inl exc) ∧
  (∀ page token,
     list_log_entries api trace' = inr (page, token) →
     ∃ entries next,
       run.2 = inr (entries, next) ∧
       Forall2 (λ entry_pb entry, entry = _log_entry_pb_to_mapping entry_pb)
         page entries ∧
       (next = None ↔ token = "") ∧
       (token ≠ "" → next = Some token)).
Proof.
  intros call trace' run. unfold run. rewrite list_entries_run.
  change (trace ++ [ListLogEntries projects filter_ order_by page_size
                      (_build_paging_options page_token)])%list with trace'.
  cbn [fst snd]. split; [reflexivity |]. split.
  - by intros exc ->.
  - intros page token ->. eexists _, _. split; [reflexivity |].
    cbn [fst snd]. split; [| apply or_None_spec].
    apply Forall2_fmap_r, Forall_Forall2_diag, Forall_forall. done.
Qed.

(** X2: [list_sinks] makes one [list_sinks] call for the project, with
    the sentinel or the given token; an exception of the call is raised
    as it came; a page comes back as the mappings of its sinks, in
    order, with the next token or [None] when it is empty. *)
Theorem list_sinks_page (api : GaxApi) (project : string) (page_size : Z)
    (page_token : option string) (trace : list rpc_call) :
  let call :=
    ListSinks project page_size
      (mkCallOptions match page_token with
                     | None => INITIAL_PAGE
                     | Some token => PageToken token
                     end) in
  let trace' := (trace ++ [call])%list in
  let run := _SinksAPI.list_sinks api project page_size page_token trace in
  run.1 = trace' ∧
  (∀ exc, list_sinks api trace' = inl exc → run.2 = inl exc) ∧
  (∀ page token,
     list_sinks api trace' = inr (page, token) →
     ∃ sinks next,
       run.2 = inr (sinks, next) ∧
       Forall2 (λ sink_pb sink,
                  sink = {[ "name" := VStr (pb_name sink_pb);
                            "destination" := VStr (pb_destination sink_pb);
                            "filter" := VStr (pb_filter sink_pb) ]})
         page sinks ∧
       (next = None ↔ token = "") ∧
       (token ≠ "" → next = Some token)).
Proof.
  intros call trace' run. unfold run. rewrite list_sinks_run.
  change (trace ++ [ListSinks project page_size
                      (_build_paging_options page_token)])%list with trace'.
  cbn [fst snd]. split; [reflexivity |]. split.
  - by intros exc ->.
  - intros page token ->. eexists _, _. split; [reflexivity |].
    cbn [fst snd]. split; [| apply or_None_spec].
    apply Forall2_fmap_r, Forall_Forall2_diag, Forall_forall. done.
Qed.

(** X3: the token a page came with, given back as [page_token], is the
    token of the options of the next call: a page of entries that is
    not the last one is followed by the call for the page after it. *)
Theorem list_entries_next_page (api : GaxApi) (projects : list string)
    (filter_ order_by : string) (page_size : Z) (page_token : option string)
    (trace : list rpc_call) (entries : list (gmap string pyval))
    (token : string) :
  let run :=
    _LoggingAPI.list_entries api projects filter_ order_by page_size
      page_token trace in
  run.2 = inr (entries, Some token) →
  (∃ page, list_log_entries api run.1 = inr (page, token)) ∧
  (_LoggingAPI.list_entries api projects filter_ order_by page_size
     (Some token) run.1).1
  = (run.1 ++ [ListLogEntries projects filter_ order_by page_size
                 (mkCallOptions (PageToken token))])%list.
Proof.
  intros run. unfold run. rewrite !list_entries_run. cbn [fst snd].
  intros Hrun. split; [| reflexivity].
  apply bind_ok in Hrun as ([page token'] & Hpage & [= <- Htoken]).
  exists page. rewrite Hpage. do 2 f_equal. cbn [snd] in Htoken.
  unfold or_None in Htoken. by destruct (bool_decide _); simplify_eq.
Qed.

Lemma list_entries_next_page_witness :
  let first :=
    _LoggingAPI.list_entries paged_api ["p1"] "" "" 0 None [] in
  first.2
  = inr ([_log_entry_pb_to_mapping (set_text_payload "one" LogEntry_default)],
         Some "page-2") ∧
  (_LoggingAPI.list_entries paged_api ["p1"] "" "" 0 (Some "page-2")
     first.1).1
  = [ ListLogEntries ["p1"] "" "" 0 (mkCallOptions INITIAL_PAGE);
      ListLogEntries ["p1"] "" "" 0 (mkCallOptions (PageToken "page-2")) ].
Proof.
  intros first. split; [reflexivity |].
  apply (list_entries_next_page paged_api ["p1"] "" "" 0 None []
           [_log_entry_pb_to_mapping (set_text_payload "one" LogEntry_default)]
           "page-2").
  reflexivity.
Defined.

Lemma list_entries_page_witness :
  (∃ entries next,
     (_LoggingAPI.list_entries paged_api ["p1"] "" "" 0 (Some "page-2") []).2
     = inr (entries, next) ∧
     Forall2 (λ entry_pb entry, entry = _log_entry_pb_to_mapping entry_pb)
       [set_text_payload "two" LogEntry_default] entries ∧
     next = None) ∧
  (_LoggingAPI.list_entries denied_api ["p1"] "" "" 0 None []).2
  = status_error PERMISSION_DENIED.
Proof.
  destruct (list_entries_page paged_api ["p1"] "" "" 0 (Some "page-2") [])
    as (_ & _ & Hpage).
  destruct (list_entries_page denied_api ["p1"] "" "" 0 None [])
    as (_ & Hexc & _).
  split; [| by apply Hexc].
  destruct (Hpage [set_text_payload "two" LogEntry_default] "" eq_refl)
    as (entries & next & Hrun & Hall & Hnone & _).
  exists entries, next. split; [exact Hrun |]. split; [exact Hall |].
  by apply Hnone.
Defined.

Lemma list_sinks_page_witness :
  let created :=
    (_SinksAPI.sink_create memory_api "p1" "s1" "severity>=ERROR"
       "storage.googleapis.com/bucket" []).1 in
  ∃ sinks next,
    (_SinksAPI.list_sinks memory_api "p1" 0 None created).2
    = inr (sinks, next) ∧
    Forall2 (λ sink_pb sink,
               sink = {[ "name" := VStr (pb_name sink_pb);
                         "destination" := VStr (pb_destination sink_pb);
                         "filter" := VStr (pb_filter sink_pb) ]})
      [mkLogSink "projects/p1/sinks/s1" "severity>=ERROR"
         "storage.googleapis.com/bucket"] sinks ∧
    next = None.
Proof.
  intros created.
  destruct (list_sinks_page memory_api "p1" 0 None created) as (_ & _ & Hpage).
  destruct (Hpage [mkLogSink "projects/p1/sinks/s1" "severity>=ERROR"
                     "storage.googleapis.com/bucket"] "" eq_refl)
    as (sinks & next & Hrun & Hall & Hnone & _).
  exists sinks, next. split; [exact Hrun |]. split; [exact Hall |].
  by apply Hnone.
Defined.

(** ** Reading a sink *)

(** X4: when the [get_sink] call returns a sink, [sink_get] returns the
    mapping of that sink: the name, destination and filter the server
    holds, and no other key. *)
Theorem sink_get_returns_answer (api : GaxApi) (project sink_name : string)
    (trace : list rpc_call) (answer : LogSink) :
  let path := "projects/" ++ project ++ "/sinks/" ++ sink_name in
  get_sink api (trace ++ [GetSink path None])%list = inr answer →
  ∃ sink,
    (_SinksAPI.sink_get api project sink_name trace).2 = inr sink ∧
    sink !! "name" = Some (VStr (pb_name answer)) ∧
    sink !! "destination" = Some (VStr (pb_destination answer)) ∧
    sink !! "filter" = Some (VStr (pb_filter answer)) ∧
    dom sink = ({[ "name"; "destination"; "filter" ]} : gset string).
Proof.
  intros path Hanswer. rewrite sink_get_run. fold path. rewrite Hanswer.
  eexists. split; [reflexivity |]. repeat split.
Qed.

Lemma sink_get_returns_answer_witness :
  let created :=
    (_SinksAPI.sink_create memory_api "p1" "s1" "severity>=ERROR"
       "storage.googleapis.com/bucket" []).1 in
  ∃ sink,
    (_SinksAPI.sink_get memory_api "p1" "s1" created).2 = inr sink ∧
    sink !! "name" = Some (VStr "projects/p1/sinks/s1") ∧
    sink !! "destination" = Some (VStr "storage.googleapis.com/bucket") ∧
    sink !! "filter" = Some (VStr "severity>=ERROR") ∧
    dom sink = ({[ "name"; "destination"; "filter" ]} : gset string).
Proof.
  intros created.
  apply (sink_get_returns_answer memory_api "p1" "s1" created
           (mkLogSink "projects/p1/sinks/s1" "severity>=ERROR"
              "storage.googleapis.com/bucket")).
  reflexivity.
Defined.

(** ** One call at most *)

Lemma sink_create_run (api : GaxApi)
    (project sink_name filter_ destination : string) (trace : list rpc_call) :
  let path := "projects/" ++ project ++ "/sinks/" ++ sink_name in
  let sink_pb := mkLogSink path filter_ destination in
  let trace' :=
    (trace ++ [CreateSink ("projects/" ++ project) sink_pb None])%list in
  _SinksAPI.sink_create api project sink_name filter_ destination trace
  = (trace', handled FAILED_PRECONDITION (Conflict path)
               (create_sink api trace') (λ _, ())).
Proof.
  intros path sink_pb trace'. subst path sink_pb trace'.
  unfold _SinksAPI.sink_create. run_method (create_sink api).
Qed.

(** X5: whatever the server answers, each method of the two classes
    leaves the calls made before it as they were and adds exactly one
    call, except [write_entries], which adds one or none. *)
Theorem methods_make_one_call (json_dumps : pyval → result string)
    (Parse : string → Any → result Any) (api : GaxApi)
    (trace : list rpc_call) :
  let one_call {A} (run : list rpc_call * result A) :=
    ∃ call, run.1 = (trace ++ [call])%list in
  (∀ projects filter_ order_by page_size page_token,
     one_call (_LoggingAPI.list_entries api projects filter_ order_by
                 page_size page_token trace)) ∧
  (∀ entries logger_name resource labels,
     let run :=
       _LoggingAPI.write_entries json_dumps Parse api entries logger_name
         resource labels trace in
     one_call run ∨ run.1 = trace ∧ ∃ exc, run.2 = inl exc) ∧
  (∀ project logger_name,
     one_call (_LoggingAPI.logger_delete api project logger_name trace)) ∧
  (∀ project page_size page_token,
     one_call (_SinksAPI.list_sinks api project page_size page_token trace)) ∧
  (∀ project sink_name filter_ destination,
     one_call (_SinksAPI.sink_create api project sink_name filter_
                 destination trace)) ∧
  (∀ project sink_name,
     one_call (_SinksAPI.sink_get api project sink_name trace)) ∧
  (∀ project sink_name filter_ destination,
     one_call (_SinksAPI.sink_update api project sink_name filter_
                 destination trace)) ∧
  (∀ project sink_name,
     one_call (_SinksAPI.sink_delete api project sink_name trace)).
Proof.
  intros one_call. unfold one_call. repeat split; intros.
  - rewrite list_entries_run. by eexists.
  - unfold _LoggingAPI.write_entries, lift, rpc, mbind, api_call_bind.
    destruct (comprehension _ entries) as [exc | entry_pbs]; cbn.
    + right. eauto.
    + left. by eexists.
  - by eexists.
  - rewrite list_sinks_run. by eexists.
  - rewrite sink_create_run. by eexists.
  - rewrite sink_get_run. by eexists.
  - rewrite sink_update_run. by eexists.
  - rewrite sink_delete_run. by eexists.
Qed.

(** ** Paths *)

(** X6: within a project, methods called on different short names
    address different resources: the path of the call determines the
    logger name or the sink name it was built from. *)
Theorem paths_determine_names (api : GaxApi) (project : string)
    (trace : list rpc_call) :
  (∀ logger_name logger_name',
     (_LoggingAPI.logger_delete api project logger_name trace).1
     = (_LoggingAPI.logger_delete api project logger_name' trace).1 →
     logger_name = logger_name') ∧
  (∀ sink_name sink_name' filter_ destination,
     (_SinksAPI.sink_create api project sink_name filter_ destination
        trace).1
     = (_SinksAPI.sink_create api project sink_name' filter_ destination
          trace).1 →
     sink_name = sink_name') ∧
  (∀ sink_name sink_name',
     (_SinksAPI.sink_get api project sink_name trace).1
     = (_SinksAPI.sink_get api project sink_name' trace).1 →
     sink_name = sink_name') ∧
  (∀ sink_name sink_name' filter_ destination,
     (_SinksAPI.sink_update api project sink_name filter_ destination
        trace).1
     = (_SinksAPI.sink_update api project sink_name' filter_ destination
          trace).1 →
     sink_name = sink_name') ∧
  (∀ sink_name sink_name',
     (_SinksAPI.sink_delete api project sink_name trace).1
     = (_SinksAPI.sink_delete api project sink_name' trace).1 →
     sink_name = sink_name').
Proof.
  repeat split; intros *;
    rewrite ?sink_create_run, ?sink_get_run, ?sink_update_run,
      ?sink_delete_run; cbn [fst _LoggingAPI.logger_delete rpc];
    intros Hsame; apply app_inj_tail in Hsame as [_ Hcall];
    injection Hcall as Hpath; by repeat apply String.app_inj in Hpath.
Qed.

(** ** The HTTP request of an entry *)

(** One turn of the loop of [_http_request_mapping_to_pb] on a
    dictionary. *)
Lemma http_request_key_step (d : gmap string pyval) (key : string)
    (request : HttpRequest) :
  (present ← py_contains key (VDict d);
   if (present : bool) then
     value ← py_getitem (VDict d) key; HttpRequest_setattr request key value
   else ok request)
  = match d !! key with
    | Some value => HttpRequest_setattr request key value
    | None => ok request
    end.
Proof. cbn. by destruct (d !! key). Qed.

Lemma for_each_ext {A S} (body body' : S → A → result S) (xs : list A)
    (s : S) :
  (∀ s x, body s x = body' s x) →
  for_each body xs s = for_each body' xs s.
Proof.
  intros Hbody. revert s. induction xs as [| x xs IH]; intros s; [done |].
  cbn [for_each]. rewrite Hbody. destruct (body' s x); [done | apply IH].
Qed.

Lemma http_request_dict (d : gmap string pyval) (request : HttpRequest) :
  _http_request_mapping_to_pb (VDict d) request
  = for_each (λ request key,
        match d !! key with
        | Some value => HttpRequest_setattr request key value
        | None => ok request
        end)
      [ "request_method"; "request_url"; "status"; "referer"; "user_agent";
        "cache_hit"; "request_size"; "response_size"; "remote_ip" ] request.
Proof.
  unfold _http_request_mapping_to_pb. apply for_each_ext.
  intros request' key. apply http_request_key_step.
Qed.

(** X7: [_http_request_mapping_to_pb] reads the nine keys of its list
    and no other: two dictionaries that agree on those keys fill a
    request alike, whatever else they hold. *)
Theorem http_request_other_keys_ignored (d d' : gmap string pyval)
    (request : HttpRequest) :
  Forall (λ key, d !! key = d' !! key)
    [ "request_method"; "request_url"; "status"; "referer"; "user_agent";
      "cache_hit"; "request_size"; "response_size"; "remote_ip" ] →
  _http_request_mapping_to_pb (VDict d) request
  = _http_request_mapping_to_pb (VDict d') request.
Proof.
  intros Hagree. rewrite !http_request_dict.
  revert request.
  induction Hagree as [| key keys Hkey _ IH]; intros request; [done |].
  cbn [for_each]. rewrite Hkey.
  destruct (d' !! key) as [value |]; [| apply IH].
  destruct (HttpRequest_setattr request key value) as [exc | request'];
    [done | apply IH].
Qed.

Lemma http_request_other_keys_ignored_witness :
  _http_request_mapping_to_pb
    (VDict {[ "status" := VInt 404; "protocol" := VStr "HTTP/1.1" ]})
    HttpRequest_default
  = _http_request_mapping_to_pb (VDict {[ "status" := VInt 404 ]})
      HttpRequest_default.
Proof.
  apply http_request_other_keys_ignored. repeat constructor.
Defined.

(** What one [setattr] on a request changes: the field of the key, to
    the value as the type of the field takes it, and no other field. *)
Lemma HttpRequest_setattr_fields (request request' : HttpRequest)
    (key : string) (value : pyval) :
  HttpRequest_setattr request key value = inr request' →
  (if decide (key = "request_method")
   then check_str value = inr (request_method request')
   else request_method request' = request_method request) ∧
  (if decide (key = "request_url")
   then check_str value = inr (request_url request')
   else request_url request' = request_url request) ∧
  (if decide (key = "status")
   then check_int 32 value = inr (status request')
   else status request' = status request) ∧
  (if decide (key = "referer")
   then check_str value = inr (referer request')
   else referer request' = referer request) ∧
  (if decide (key = "user_agent")
   then check_str value = inr (user_agent request')
   else user_agent request' = user_agent request) ∧
  (if decide (key = "cache_hit")
   then check_bool value = inr (cache_hit request')
   else cache_hit request' = cache_hit request) ∧
  (if decide (key = "request_size")
   then check_int 64 value = inr (request_size request')
   else request_size request' = request_size request) ∧
  (if decide (key = "response_size")
   then check_int 64 value = inr (response_size request')
   else response_size request' = response_size request) ∧
  (if decide (key = "remote_ip")
   then check_str value = inr (remote_ip request')
   else remote_ip request' = remote_ip request).
Proof.
  unfold HttpRequest_setattr. destruct request.
  repeat case_bool_decide; [subst key .. | discriminate].
  all: intros Hset; apply bind_ok in Hset as (x & Hx & [= <-]).
  all: repeat split; exact Hx.
Qed.

(** One turn of the loop, on the nine fields. *)
Lemma http_request_step_fields (d : gmap string pyval) (key : string)
    (request request' : HttpRequest) :
  match d !! key with
  | Some value => HttpRequest_setattr request key value
  | None => ok request
  end = inr request' →
  let field {A} (name : string) (check : pyval → result A)
      (get : HttpRequest → A) :=
    if decide (key = name) then
      match d !! key with
      | Some value => check value = inr (get request')
      | None => get request' = get request
      end
    else get request' = get request in
  field "request_method" check_str request_method ∧
  field "request_url" check_str request_url ∧
  field "status" (check_int 32) status ∧
  field "referer" check_str referer ∧
  field "user_agent" check_str user_agent ∧
  field "cache_hit" check_bool cache_hit ∧
  field "request_size" (check_int 64) request_size ∧
  field "response_size" (check_int 64) response_size ∧
  field "remote_ip" check_str remote_ip.
Proof.
  intros Hstep field. unfold field. destruct (d !! key) as [value |].
  - apply HttpRequest_setattr_fields in Hstep. exact Hstep.
  - injection Hstep as <-. repeat split; by destruct (decide _).
Qed.

(** X8: when [_http_request_mapping_to_pb] returns, each of the nine
    fields of the request holds what the check of the field stores of
    the value of its key (a string as it is, an integer as the bool it
    stands for in a bool field, a bool as 0 or 1 in an integer field),
    or, the key absent, the value the field had before. *)
Theorem http_request_fields (d : gmap string pyval)
    (request request' : HttpRequest) :
  _http_request_mapping_to_pb (VDict d) request = inr request' →
  match d !! "request_method" with
  | Some value => check_str value = inr (request_method request')
  | None => request_method request' = request_method request
  end ∧
  match d !! "request_url" with
  | Some value => check_str value = inr (request_url request')
  | None => request_url request' = request_url request
  end ∧
  match d !! "status" with
  | Some value => check_int 32 value = inr (status request')
  | None => status request' = status request
  end ∧
  match d !! "referer" with
  | Some value => check_str value = inr (referer request')
  | None => referer request' = referer request
  end ∧
  match d !! "user_agent" with
  | Some value => check_str value = inr (user_agent request')
  | None => user_agent request' = user_agent request
  end ∧
  match d !! "cache_hit" with
  | Some value => check_bool value = inr (cache_hit request')
  | None => cache_hit request' = cache_hit request
  end ∧
  match d !! "request_size" with
  | Some value => check_int 64 value = inr (request_size request')
  | None => request_size request' = request_size request
  end ∧
  match d !! "response_size" with
  | Some value => check_int 64 value = inr (response_size request')
  | None => response_size request' = response_size request
  end ∧
  match d !! "remote_ip" with
  | Some value => check_str value = inr (remote_ip request')
  | None => remote_ip request' = remote_ip request
  end.
Proof.
  rewrite http_request_dict. cbn [for_each]. intros H.
  apply bind_ok in H as (r1 & H1 & H). apply bind_ok in H as (r2 & H2 & H).
  apply bind_ok in H as (r3 & H3 & H). apply bind_ok in H as (r4 & H4 & H).
  apply bind_ok in H as (r5 & H5 & H). apply bind_ok in H as (r6 & H6 & H).
  apply bind_ok in H as (r7 & H7 & H). apply bind_ok in H as (r8 & H8 & H).
  apply bind_ok in H as (r9 & H9 & [= ->]).
  apply http_request_step_fields in H1, H2, H3, H4, H5, H6, H7, H8, H9.
  cbn in H1, H2, H3, H4, H5, H6, H7, H8, H9.
  destruct H1 as (? & ? & ? & ? & ? & ? & ? & ? & ?),
    H2 as (? & ? & ? & ? & ? & ? & ? & ? & ?),
    H3 as (? & ? & ? & ? & ? & ? & ? & ? & ?),
    H4 as (? & ? & ? & ? & ? & ? & ? & ? & ?),
    H5 as (? & ? & ? & ? & ? & ? & ? & ? & ?),
    H6 as (? & ? & ? & ? & ? & ? & ? & ? & ?),
    H7 as (? & ? & ? & ? & ? & ? & ? & ? & ?),
    H8 as (? & ? & ? & ? & ? & ? & ? & ? & ?),
    H9 as (? & ? & ? & ? & ? & ? & ? & ? & ?).
  repeat split;
    match goal with
    | |- match ?lookup with _ => _ end => destruct lookup
    end; congruence.
Qed.

Lemma http_request_fields_witness :
  let d : gmap string pyval :=
    {[ "status" := VInt 404; "cache_hit" := VInt 1 ]} in
  let request :=
    mkHttpRequest "GET" "/index.html" 0 "" "" false 0 0 ""
      HttpRequestUnread_default in
  let request' :=
    mkHttpRequest "GET" "/index.html" 404 "" "" true 0 0 ""
      HttpRequestUnread_default in
  _http_request_mapping_to_pb (VDict d) request = inr request' ∧
  request_method request' = request_method request ∧
  check_int 32 (VInt 404) = inr (status request') ∧
  check_bool (VInt 1) = inr (cache_hit request').
Proof.
  intros d request request'.
  destruct (http_request_fields d request request' eq_refl)
    as (Hmethod & _ & Hstatus & _ & _ & Hcache_hit & _).
  split; [reflexivity |]. split; [exact Hmethod |].
  split; [exact Hstatus | exact Hcache_hit].
Defined.

(** ** The operation of an entry *)

Lemma operation_flag (d : gmap string pyval) (key : string)
    (flag flag' : bool) :
  (if bool_decide (is_Some (d !! key))
   then v ← py_getitem (VDict d) key; check_bool v
   else ok flag) = inr flag' →
  match d !! key with
  | Some value => check_bool value = inr flag'
  | None => flag' = flag
  end.
Proof.
  cbn [py_getitem]. destruct (d !! key) as [value |].
  - by rewrite bool_decide_eq_true_2 by eauto.
  - rewrite bool_decide_eq_false_2 by (by intros [? ?]). by intros [= <-].
Qed.

(** X9: when [_log_operation_mapping_to_pb] returns, the dictionary
    has strings under [producer] and [id], the message has them, and
    each of the flags [first] and [last] is what the bool field stores
    of the value of its key (a bool, or the truth value of an integer)
    or, the key absent, the flag the message had before. *)
Theorem operation_fields (d : gmap string pyval)
    (operation operation' : LogEntryOperation) :
  _log_operation_mapping_to_pb (VDict d) operation = inr operation' →
  d !! "producer" = Some (VStr (op_producer operation')) ∧
  d !! "id" = Some (VStr (op_id operation')) ∧
  match d !! "first" with
  | Some value => check_bool value = inr (op_first operation')
  | None => op_first operation' = op_first operation
  end ∧
  match d !! "last" with
  | Some value => check_bool value = inr (op_last operation')
  | None => op_last operation' = op_last operation
  end.
Proof.
  unfold _log_operation_mapping_to_pb. destruct operation as [p i f l].
  cbn [py_getitem py_contains]. intros H.
  apply bind_ok in H as (v & Hv & H).
  apply bind_ok in H as (producer & Hproducer & H).
  apply bind_ok in H as (v' & Hv' & H).
  apply bind_ok in H as (id_ & Hid & H).
  cbn [mbind result_bind ok] in H.
  apply bind_ok in H as (f' & Hf & H). apply bind_ok in H as (l' & Hl & H).
  injection H as <-. cbn.
  destruct (d !! "producer") as [value |]; [| done]. injection Hv as ->.
  destruct (d !! "id") as [value |]; [| done]. injection Hv' as ->.
  destruct v; try done. destruct v'; try done.
  injection Hproducer as ->. injection Hid as ->.
  repeat split; by apply operation_flag.
Qed.

Lemma operation_fields_witness :
  let d : gmap string pyval :=
    {[ "producer" := VStr "compute.googleapis.com";
       "id" := VStr "op-17";
       "last" := VInt 1 ]} in
  let operation := mkLogEntryOperation "" "" true false in
  let operation' :=
    mkLogEntryOperation "compute.googleapis.com" "op-17" true true in
  _log_operation_mapping_to_pb (VDict d) operation = inr operation' ∧
  op_first operation' = op_first operation ∧
  check_bool (VInt 1) = inr (op_last operation').
Proof.
  intros d operation operation'.
  destruct (operation_fields d operation operation' eq_refl)
    as (_ & _ & Hfirst & Hlast).
  split; [reflexivity |]. split; [exact Hfirst | exact Hlast].
Defined.

(** ** From a message to its mapping and back *)

(** X10: the [operation] sub-mapping of the mapping of a message, put
    back into any operation message, gives the operation of the
    message. *)
Theorem operation_round_trip (entry_pb : LogEntry) (info : pyval)
    (operation0 : LogEntryOperation) :
  _log_entry_pb_to_mapping entry_pb !! "operation" = Some info →
  _log_operation_mapping_to_pb info operation0 = inr (operation entry_pb).
Proof.
  unfold _log_entry_pb_to_mapping.
  destruct (LogEntryOperation_bool (operation entry_pb));
    [| by destruct (HttpRequest_bool _)].
  rewrite lookup_insert_eq. intros [= <-].
  destruct (operation entry_pb), operation0. reflexivity.
Qed.

Lemma operation_round_trip_witness :
  let operation := mkLogEntryOperation "compute.googleapis.com" "op-17"
                     true false in
  _log_operation_mapping_to_pb
    (VDict {[ "producer" := VStr "compute.googleapis.com";
              "id" := VStr "op-17";
              "first" := VBool true;
              "last" := VBool false ]})
    LogEntryOperation_default
  = inr operation.
Proof.
  intros operation.
  apply (operation_round_trip (set_operation operation LogEntry_default)).
  reflexivity.
Defined.

Lemma check_int_fits (bits n : Z) :
  - 2 ^ (bits - 1) ≤ n < 2 ^ (bits - 1) → check_int bits (VInt n) = inr n.
Proof. intros Hfits. unfold check_int. by rewrite bool_decide_eq_true_2. Qed.

Lemma http_request_all_keys (d : gmap string pyval) (request0 : HttpRequest)
    (rm ru : string) (st : Z) (rf ua : string) (ch : bool) (rq rs : Z)
    (ip : string) :
  d !! "request_method" = Some (VStr rm) →
  d !! "request_url" = Some (VStr ru) →
  d !! "status" = Some (VInt st) →
  d !! "referer" = Some (VStr rf) →
  d !! "user_agent" = Some (VStr ua) →
  d !! "cache_hit" = Some (VBool ch) →
  d !! "request_size" = Some (VInt rq) →
  d !! "response_size" = Some (VInt rs) →
  d !! "remote_ip" = Some (VStr ip) →
  - 2 ^ 31 ≤ st < 2 ^ 31 → - 2 ^ 63 ≤ rq < 2 ^ 63 → - 2 ^ 63 ≤ rs < 2 ^ 63 →
  _http_request_mapping_to_pb (VDict d) request0
  = inr (mkHttpRequest rm ru st rf ua ch rq rs ip (unread request0)).
Proof.
  intros Hrm Hru Hst Hrf Hua Hch Hrq Hrs Hip Hst_fits Hrq_fits Hrs_fits.
  rewrite http_request_dict. cbn [for_each].
  rewrite Hrm, Hru, Hst, Hrf, Hua, Hch, Hrq, Hrs, Hip.
  unfold HttpRequest_setattr.
  rewrite (check_int_fits 32 st), (check_int_fits 64 rq),
    (check_int_fits 64 rs) by done.
  by destruct request0.
Qed.

(** X11: the [http_request] sub-mapping of the mapping of a message,
    put back into a request message, gives the nine fields the module
    copies as the message has them, provided its status fits 32 bits
    and its two sizes 64, and leaves every other field of the request
    as it was: the result is the request of the message exactly when
    the two agree on the fields the module does not copy. *)
Theorem http_request_round_trip (entry_pb : LogEntry) (info : pyval)
    (request0 : HttpRequest) :
  _log_entry_pb_to_mapping entry_pb !! "http_request" = Some info →
  - 2 ^ 31 ≤ status (http_request entry_pb) < 2 ^ 31 →
  - 2 ^ 63 ≤ request_size (http_request entry_pb) < 2 ^ 63 →
  - 2 ^ 63 ≤ response_size (http_request entry_pb) < 2 ^ 63 →
  let request := http_request entry_pb in
  let request' :=
    mkHttpRequest (request_method request) (request_url request)
      (status request) (referer request) (user_agent request)
      (cache_hit request) (request_size request) (response_size request)
      (remote_ip request) (unread request0) in
  _http_request_mapping_to_pb info request0 = inr request' ∧
  (request' = request ↔ unread request0 = unread request).
Proof.
  unfold _log_entry_pb_to_mapping. intros Hinfo Hstatus Hrequest Hresponse.
  destruct (HttpRequest_bool (http_request entry_pb)).
  2: { destruct (LogEntryOperation_bool _); discriminate Hinfo. }
  assert (Hsub : info = VDict (list_to_map [
            ("request_method", VStr (request_method (http_request entry_pb)));
            ("request_url", VStr (request_url (http_request entry_pb)));
            ("status", VInt (status (http_request entry_pb)));
            ("referer", VStr (referer (http_request entry_pb)));
            ("user_agent", VStr (user_agent (http_request entry_pb)));
            ("cache_hit", VBool (cache_hit (http_request entry_pb)));
            ("request_size", VInt (request_size (http_request entry_pb)));
            ("response_size", VInt (response_size (http_request entry_pb)));
            ("remote_ip", VStr (remote_ip (http_request entry_pb))) ])).
  { destruct (LogEntryOperation_bool _); by injection Hinfo as <-. }
  subst info. destruct (http_request entry_pb) as [? ? ? ? ? ? ? ? ? rest].
  cbn [request_method request_url status referer user_agent cache_hit
         request_size response_size remote_ip unread] in *.
  split; [by apply http_request_all_keys |].
  split; [by intros [= ->] | by intros ->].
Qed.

Lemma http_request_round_trip_witness :
  let request :=
    mkHttpRequest "GET" "/index.html" 404 "" "curl/7.47" false 0 512
      "10.0.0.1"
      (mkHttpRequestUnread "" (mkDuration 0 0) false false 0 "HTTP/1.1") in
  let entry_pb := set_http_request request LogEntry_default in
  ∃ info,
    _log_entry_pb_to_mapping entry_pb !! "http_request" = Some info ∧
    _http_request_mapping_to_pb info HttpRequest_default
    = inr (mkHttpRequest "GET" "/index.html" 404 "" "curl/7.47" false 0 512
             "10.0.0.1" HttpRequestUnread_default).
Proof.
  intros request entry_pb. eexists. split; [reflexivity |].
  apply (http_request_round_trip entry_pb); [reflexivity | | |];
    cbn; split; by vm_compute.
Defined.

(** ** Entries: what the conversion keeps and what it drops *)

Section EntryConversion.

Variable json_dumps : pyval → result string.
Variable Parse : string → Any → result Any.

Abbreviation convert := (_log_entry_mapping_to_pb json_dumps Parse).

(** X12: the mapping [_log_entry_pb_to_mapping] makes of a message is
    never one [_log_entry_mapping_to_pb] takes back: its [resource] is
    the message object, which has no item ["type"], and the conversion
    raises [TypeError]. *)
Theorem pb_mapping_not_convertible (entry_pb : LogEntry) :
  convert (_log_entry_pb_to_mapping entry_pb) = inl TypeError.
Proof.
  unfold _log_entry_pb_to_mapping.
  destruct (HttpRequest_bool _), (LogEntryOperation_bool _); reflexivity.
Qed.

(** X13: of the [resource] of a mapping only [type] reaches the message:
    when the conversion returns, the dictionary has a string under
    [type], the resource of the message has that type, and it has no
    labels, whatever else the dictionary holds. *)
Theorem resource_only_type (mapping d : gmap string pyval) (pb : LogEntry) :
  mapping !! "resource" = Some (VDict d) →
  convert mapping = inr pb →
  ∃ type, d !! "type" = Some (VStr type) ∧
          resource pb = mkMonitoredResource type ∅.
Proof.
  intros Hresource H. apply mapping_to_pb_fields in H.
  destruct H as (_ & _ & _ & F4 & _). rewrite Hresource in F4.
  destruct F4 as [Htype Hlabels]. cbn in Htype.
  destruct (d !! "type") as [[] |]; try done.
  injection Htype as Htype. exists s. split; [done |].
  destruct (resource pb). cbn in *. by subst.
Qed.

(** The loop over the labels, on a list without a repeated key. *)
Lemma labels_copied (items : list (string * pyval))
    (acc ls : gmap string string) :
  NoDup items.*1 →
  for_each (λ ls '(key, value), s ← check_str value; ok (<[key := s]> ls))
    items acc = inr ls →
  VStr <$> ls = list_to_map items ∪ (VStr <$> acc).
Proof.
  revert acc. induction items as [| [key value] items IH]; intros acc Hkeys H.
  - injection H as <-. symmetry. apply (left_id_L (∅ : gmap string pyval) (∪)).
  - apply NoDup_cons in Hkeys as [Hkey Hkeys]. cbn [for_each] in H.
    apply bind_ok in H as (acc' & Hstep & H).
    apply bind_ok in Hstep as (s & Hs & [= <-]).
    destruct value; try done. injection Hs as ->.
    apply IH in H; [| done]. rewrite H, fmap_insert. cbn [list_to_map foldr].
    rewrite <- insert_union_l. cbn [fst snd]. symmetry.
    apply insert_union_r. by apply not_elem_of_list_to_map_1.
Qed.

(** X14: the labels of a mapping are copied key by key: when the
    conversion returns, every label of the dictionary is a string and
    the labels of the message are exactly those of the dictionary. *)
Theorem labels_copied_exactly (mapping d : gmap string pyval)
    (pb : LogEntry) :
  mapping !! "labels" = Some (VDict d) →
  convert mapping = inr pb →
  VStr <$> labels pb = d.
Proof.
  intros Hlabels H. apply mapping_to_pb_fields in H.
  destruct H as (_ & _ & _ & _ & _ & _ & F7 & _). rewrite Hlabels in F7.
  destruct F7 as (items & [= <-] & Hitems).
  apply labels_copied in Hitems; [| apply NoDup_fst_map_to_list].
  by rewrite Hitems, list_to_map_to_list, fmap_empty, (right_id_L ∅ (∪)).
Qed.

(** X15: the conversion reads the eleven keys of an entry and no other:
    two mappings that agree on them convert alike, to the same message
    or the same exception. *)
Theorem entry_other_keys_ignored (mapping mapping' : gmap string pyval) :
  Forall (λ key, mapping !! key = mapping' !! key)
    [ "log_name"; "insert_id"; "text_payload"; "resource"; "severity";
      "timestamp"; "labels"; "json_payload"; "proto_payload";
      "http_request"; "operation" ] →
  convert mapping = convert mapping'.
Proof.
  intros Hagree. unfold _log_entry_mapping_to_pb. cbn [for_each].
  repeat match goal with
         | H : Forall _ (_ :: _) |- _ =>
             apply Forall_cons in H as [-> H]
         end.
  reflexivity.
Qed.


(** X17: an [operation] needs [producer] and [id]: on a dictionary
    without [producer], [_log_operation_mapping_to_pb] raises [KeyError]
    on that key, and with a [producer] string but no [id], [KeyError] on
    [id]; a mapping whose [operation] lacks either is never converted. *)
Theorem operation_needs_producer_and_id (mapping d : gmap string pyval)
    (operation : LogEntryOperation) :
  (d !! "producer" = None →
   _log_operation_mapping_to_pb (VDict d) operation
   = inl (KeyError "producer")) ∧
  (∀ producer,
     d !! "producer" = Some (VStr producer) → d !! "id" = None →
     _log_operation_mapping_to_pb (VDict d) operation = inl (KeyError "id")) ∧
  (mapping !! "operation" = Some (VDict d) →
   d !! "producer" = None ∨ d !! "id" = None →
   ∃ exc, convert mapping = inl exc).
Proof.
  split; [| split].
  - unfold _log_operation_mapping_to_pb. destruct operation. cbn.
    by intros ->.
  - unfold _log_operation_mapping_to_pb. destruct operation. cbn.
    by intros producer -> ->.
  - intros Hoperation Hmissing.
    destruct (convert mapping) as [exc | pb] eqn:H; [by exists exc |].
    apply mapping_to_pb_fields in H.
    destruct H as (_ & _ & _ & _ & _ & _ & _ & _ & _ & _ & F11).
    rewrite Hoperation in F11. unfold _log_operation_mapping_to_pb in F11.
    cbn in F11. destruct Hmissing as [Hmissing | Hmissing].
    + by rewrite Hmissing in F11.
    + rewrite Hmissing in F11.
      destruct (d !! "producer") as [value |]; [| done]. cbn in F11.
      by destruct (check_str value).
Qed.

End EntryConversion.

Lemma operation_needs_producer_and_id_witness :
  _log_operation_mapping_to_pb (VDict {[ "id" := VStr "op-17" ]})
    LogEntryOperation_default
  = inl (KeyError "producer") ∧
  _log_operation_mapping_to_pb
    (VDict {[ "producer" := VStr "compute.googleapis.com" ]})
    LogEntryOperation_default
  = inl (KeyError "id") ∧
  ∃ exc,
    _log_entry_mapping_to_pb json_dumps_none Parse_none
      {[ "text_payload" := VStr "started";
         "operation" := VDict {[ "id" := VStr "op-17" ]} ]}
    = inl exc.
Proof.
  split; [| split].
  - apply (operation_needs_producer_and_id json_dumps_none Parse_none ∅
             {[ "id" := VStr "op-17" ]} LogEntryOperation_default).
    reflexivity.
  - destruct (operation_needs_producer_and_id json_dumps_none Parse_none ∅
                {[ "producer" := VStr "compute.googleapis.com" ]}
                LogEntryOperation_default) as (_ & Hid & _).
    apply (Hid "compute.googleapis.com"); reflexivity.
  - destruct (operation_needs_producer_and_id json_dumps_none Parse_none
                {[ "text_payload" := VStr "started";
                   "operation" := VDict {[ "id" := VStr "op-17" ]} ]}
                {[ "id" := VStr "op-17" ]} LogEntryOperation_default)
      as (_ & _ & Hentry).
    apply Hentry; [reflexivity | by left].
Defined.

Lemma resource_only_type_witness :
  let d : gmap string pyval :=
    {[ "type" := VStr "gce_instance";
       "labels" := VDict {[ "zone" := VStr "us-central1-a" ]} ]} in
  ∃ type, d !! "type" = Some (VStr type) ∧
          resource (set_resource (mkMonitoredResource "gce_instance" ∅)
                      LogEntry_default)
          = mkMonitoredResource type ∅.
Proof.
  intros d.
  apply (resource_only_type json_dumps_none Parse_none
           {[ "resource" := VDict d ]} d); reflexivity.
Defined.

Lemma labels_copied_exactly_witness :
  let d : gmap string pyval :=
    {[ "env" := VStr "prod"; "zone" := VStr "us-central1-a" ]} in
  let pb :=
    set_labels {[ "env" := "prod"; "zone" := "us-central1-a" ]}
      (set_log_name "projects/p1/logs/syslog" LogEntry_default) in
  VStr <$> labels pb = d.
Proof.
  intros d pb.
  apply (labels_copied_exactly json_dumps_none Parse_none
           {[ "log_name" := VStr "projects/p1/logs/syslog";
              "labels" := VDict d ]} d pb);
    [reflexivity |].
  vm_compute. reflexivity.
Defined.

Lemma entry_other_keys_ignored_witness :
  _log_entry_mapping_to_pb json_dumps_none Parse_none
    {[ "text_payload" := VStr "disk full"; "trace" := VStr "abc123" ]}
  = _log_entry_mapping_to_pb json_dumps_none Parse_none
      {[ "text_payload" := VStr "disk full" ]}.
Proof.
  apply entry_other_keys_ignored. repeat constructor.
Defined.

